(** * pulpos: semihosting bridge and buffered console

    A shallow embedding of
      - kernel/semihost.h              (trap primitive and its typed wrappers),
      - chips/pulp_open/kernel/hal.h   (platform exit, write),
      - chips/pulp_open/kernel/hal.c   (the buffered console),
      - lib/libc/minimal/io.c          (puts, fputc, putchar),
    followed by the properties of the console and of the argument blocks. *)

From Stdlib Require Import ZArith Lia Bool.
From stdpp Require Import base list.

Local Open Scope Z_scope.

(** ** Machine integers

    C integers are integers of [Z] with the conversions written out. *)

Module Mach.

(** [int]: 32-bit two's complement. *)
Definition to_int (x : Z) : Z := (x + 2 ^ 31) mod 2 ^ 32 - 2 ^ 31.

(** A store to a [char] object keeps the low eight bits; a byte is a
    number in [0, 256). *)
Definition to_char (x : Z) : Z := x mod 2 ^ 8.

(** [long], [xlen] bits wide, two's complement. *)
Definition to_long (xlen x : Z) : Z :=
  (x + 2 ^ (xlen - 1)) mod 2 ^ xlen - 2 ^ (xlen - 1).

(** [uint_t] comes from kernel/riscv.h: the unsigned machine word,
    [xlen] bits wide. *)
Definition to_uint_t (xlen x : Z) : Z := x mod 2 ^ xlen.

Definition int_range (x : Z) : Prop := - 2 ^ 31 <= x < 2 ^ 31.
Definition uint_t_range (xlen x : Z) : Prop := 0 <= x < 2 ^ xlen.

End Mach.
Import Mach.

(** ** The observable world *)

(** What the trap hands to the host in [a1]: a scalar, or the address of
    an argument block, recorded as the words of the block at the time of
    the trap. *)
Inductive trap_arg : Type :=
  | Scalar (v : Z)
  | Block (words : list Z).

(** Events, in program order: a store to [__pi_libc_buffer] at a byte
    offset (the offset is recorded whether or not it lies inside the
    array), and a semihosting trap with [a0 = n], its argument and the
    content of the console buffer as the host finds it. *)
Inductive event : Type :=
  | EvStore (off v : Z)
  | EvTrap (n : Z) (a1 : trap_arg) (mem : list Z).

Record world : Type := World {
  __pi_libc_buffer : list Z;       (* static char __pi_libc_buffer[128] *)
  __pi_libc_buffer_index : Z;      (* static int __pi_libc_buffer_index *)
  trace : list event
}.

Definition is_trap (e : event) : bool :=
  match e with EvTrap _ _ _ => true | EvStore _ _ => false end.

Definition traps (w : world) : list event := filter is_trap (trace w).

(** ** A state monad over the world *)

Definition M (A : Type) : Type := world -> A * world.

#[export] Instance M_ret : MRet M := fun A (a : A) w => (a, w).

#[export] Instance M_bind : MBind M :=
  fun A B (k : A -> M B) (m : M A) w => let (a, w') := m w in k a w'.

Definition exec {A} (m : M A) (w : world) : world := snd (m w).
Definition result {A} (m : M A) (w : world) : A := fst (m w).

(** ** kernel/semihost.h *)

Definition SEMIHOSTING_SYS_OPEN : Z := 0x01.
Definition SEMIHOSTING_SYS_CLOSE : Z := 0x02.
Definition SEMIHOSTING_SYS_WRITE0 : Z := 0x04.
Definition SEMIHOSTING_SYS_WRITE : Z := 0x05.
Definition SEMIHOSTING_SYS_SEEK : Z := 0x0A.
Definition SEMIHOSTING_SYS_FLEN : Z := 0x0C.
Definition SEMIHOSTING_SYS_EXIT : Z := 0x18.

Definition SEMIHOST_EXIT_SUCCESS : Z := 0x20026.
Definition SEMIHOST_EXIT_ERROR : Z := 0x20023.

Definition PI_LIBC_PUTC_BUFFER_SIZE : Z := 128.

(** [strlen] of <string.h>: the number of bytes before the first NUL.
    A C string is given by the bytes found at its address; the byte after
    the last one listed reads as NUL. *)
Fixpoint strlen (s : list Z) : Z :=
  match s with
  | [] => 0
  | c :: s' => if c =? 0 then 0 else 1 + strlen s'
  end.

Section Code.

(** Width of the machine word ([long], [uint_t], addresses). *)
Variable xlen : Z.

(** The host: the value it leaves in [a0], chosen from everything it
    was asked so far, the current request included. *)
Variable host : list event -> Z.

(** Address of [__pi_libc_buffer]. *)
Variable buffer_addr : Z.

(** What a store to [buffer[off]], with [off] outside the array, does to
    the cursor: [layout off v i] is the cursor after the byte [v] went
    to offset [off] while the cursor was [i].  The source does not
    decide it; it depends on where [__pi_libc_buffer_index] is placed
    with respect to [__pi_libc_buffer] and on whether the compiled call
    reads the cursor again after the store. *)
Variable layout : Z -> Z -> Z -> Z.

(** [__pi_libc_semihost(n, _a1)]: the ebreak sequence.  The memory
    barrier placed before each call makes the stores to the argument
    block precede the trap, so the host finds the block as it was
    initialised. *)
Definition __pi_libc_semihost (n : Z) (_a1 : trap_arg) : M Z :=
  fun w =>
    let tr := trace w ++ [EvTrap n _a1 (__pi_libc_buffer w)] in
    (to_long xlen (host tr),
     World (__pi_libc_buffer w) (__pi_libc_buffer_index w) tr).

Definition __pi_libc_semihost_write0 (print_string : Z) : M unit :=
  __pi_libc_semihost SEMIHOSTING_SYS_WRITE0 (Scalar (to_long xlen print_string)) ;;
  mret tt.

(** [name_addr] is the pointer, [name] the bytes it points to. *)
Definition __pi_libc_semihost_open (name_addr : Z) (name : list Z) (mode : Z) : M Z :=
  let len := to_uint_t xlen (strlen name) in
  let args := [to_uint_t xlen (to_long xlen name_addr);
               to_uint_t xlen mode;
               len] in
  r ← __pi_libc_semihost SEMIHOSTING_SYS_OPEN (Block args);
  mret (to_int r).

Definition __pi_libc_semihost_close (fd : Z) : M Z :=
  r ← __pi_libc_semihost SEMIHOSTING_SYS_CLOSE (Scalar (to_long xlen fd));
  mret (to_int r).

Definition __pi_libc_semihost_write (fd buffer len : Z) : M Z :=
  let args := [to_uint_t xlen (to_long xlen fd);
               to_uint_t xlen (to_long xlen buffer);
               to_uint_t xlen (to_long xlen len)] in
  r ← __pi_libc_semihost SEMIHOSTING_SYS_WRITE (Block args);
  mret (to_int r).

Definition __pi_libc_semihost_seek (fd pos : Z) : M Z :=
  let args := [to_uint_t xlen (to_long xlen fd); pos] in
  r ← __pi_libc_semihost SEMIHOSTING_SYS_SEEK (Block args);
  mret (to_int r).

Definition __pi_libc_semihost_flen (fd : Z) : M Z :=
  r ← __pi_libc_semihost SEMIHOSTING_SYS_FLEN (Scalar (to_long xlen fd));
  mret (to_int r).

Definition __pi_libc_semihost_exit (code : Z) : M Z :=
  r ← __pi_libc_semihost SEMIHOSTING_SYS_EXIT (Scalar (to_long xlen code));
  mret (to_int r).

(** ** chips/pulp_open/kernel/hal.h *)

(** [while(1);] with a bound on the iterations: [None] says that the
    loop has not been left within [fuel] iterations. *)
Fixpoint while_1 (fuel : nat) : option unit :=
  match fuel with
  | O => None
  | S fuel' => while_1 fuel'
  end.

(** The function cannot return a value before the loop is left. *)
Definition __pi_init_platform_exit (fuel : nat) (status : Z)
  : world -> option unit * world :=
  fun w =>
    let (_, w') :=
      __pi_libc_semihost_exit
        (if status =? 0 then SEMIHOST_EXIT_SUCCESS else SEMIHOST_EXIT_ERROR) w in
    (while_1 fuel, w').

Definition __pi_libc_write (fd buffer len : Z) : M unit :=
  __pi_libc_semihost_write fd buffer len ;; mret tt.

(** ** chips/pulp_open/kernel/hal.c *)

Definition load_index : M Z := fun w => (__pi_libc_buffer_index w, w).

Definition store_index (v : Z) : M unit :=
  fun w => (tt, World (__pi_libc_buffer w) v (trace w)).

(** [buffer[off] = v] on the array.  Inside the array the element
    changes.  A store to another offset changes no element of the
    array. *)
Definition poke (off v : Z) (buf : list Z) : list Z :=
  if (0 <=? off) && (off <? PI_LIBC_PUTC_BUFFER_SIZE)
  then <[Z.to_nat off := v]> buf
  else buf.

(** [buffer[off] = v] on the cursor: a store inside the array leaves it,
    a store outside the array does to it what the layout says. *)
Definition cursor_after_store (off v i : Z) : Z :=
  if (0 <=? off) && (off <? PI_LIBC_PUTC_BUFFER_SIZE)
  then i
  else layout off v i.

(** The store as the program performs it; the trace keeps the offset,
    inside the array or not. *)
Definition store_buffer (off v : Z) : M unit :=
  fun w =>
    (tt, World (poke off v (__pi_libc_buffer w))
               (cursor_after_store off v (__pi_libc_buffer_index w))
               (trace w ++ [EvStore off v])).

Definition NULL : Z := 0.

Definition __pi_libc_fputc_safe (c : Z) (stream : Z) : M Z :=
  i ← load_index;
  store_buffer i (to_char c) ;;
  i ← load_index;
  store_index (to_int (i + 1)) ;;
  i ← load_index;
  (if (i =? PI_LIBC_PUTC_BUFFER_SIZE) || (c =? 10)
   then
     i ← load_index;
     store_buffer i 0 ;;
     i ← load_index;
     __pi_libc_write 1 buffer_addr i ;;
     store_index 0
   else mret tt) ;;
  mret 0.

(** ** lib/libc/minimal/io.c *)

(** The [do ... while(1)] loop of [puts], by recursion on the bytes at
    [s]; at the end of the list [*s] reads the terminating NUL. *)
Fixpoint puts_loop (s : list Z) : M unit :=
  match s with
  | [] => __pi_libc_fputc_safe 10 NULL ;; mret tt
  | c :: s' =>
      if c =? 0
      then __pi_libc_fputc_safe 10 NULL ;; mret tt
      else __pi_libc_fputc_safe c NULL ;; puts_loop s'
  end.

Definition puts (s : list Z) : M Z := puts_loop s ;; mret 0.

Definition fputc (c : Z) (stream : Z) : M Z :=
  __pi_libc_fputc_safe c NULL ;; mret 0.

(** [stdout] is only passed along; [fputc] does not look at it. *)
Definition stdout : Z := 1.

Definition putchar (c : Z) : M Z := fputc c stdout.

(** A sequence of [putchar] calls, one per element. *)
Fixpoint putchar_all (cs : list Z) : M unit :=
  match cs with
  | [] => mret tt
  | c :: cs' => putchar c ;; putchar_all cs'
  end.

(** ** Runs and what the host sees *)

(** Process start: static storage is zero. *)
Definition init : world :=
  World (replicate (Z.to_nat PI_LIBC_PUTC_BUFFER_SIZE) 0) 0 [].

(** A sequence of [__pi_libc_fputc_safe] calls, one per element. *)
Fixpoint put_chars (cs : list Z) : M unit :=
  match cs with
  | [] => mret tt
  | c :: cs' => __pi_libc_fputc_safe c NULL ;; put_chars cs'
  end.

(** The bytes a host reads for a SYS_WRITE request whose block points
    into the console buffer. *)
Definition transmitted (e : event) : list Z :=
  match e with
  | EvTrap n (Block [fd; addr; len]) mem =>
      if n =? SEMIHOSTING_SYS_WRITE
      then take (Z.to_nat len) (drop (Z.to_nat (addr - buffer_addr)) mem)
      else []
  | _ => []
  end.

(** States the console can be in: the initial one, and those a call
    of [__pi_libc_fputc_safe] leads to. *)
Inductive reachable : world -> Prop :=
  | reachable_init : reachable init
  | reachable_call (c stream : Z) (w : world) :
      reachable w ->
      reachable (exec (__pi_libc_fputc_safe c stream) w).

(** A store is safe when it is not a store to the console buffer or
    its offset lies inside the array. *)
Definition store_in_bounds (e : event) : bool :=
  match e with
  | EvStore off _ => (0 <=? off) && (off <? PI_LIBC_PUTC_BUFFER_SIZE)
  | EvTrap _ _ _ => true
  end.

End Code.

(** ** Where the cursor lies

    Two layouts.  In the first no byte of the cursor lies where a store
    past the buffer lands. *)
Definition cursor_apart (off v i : Z) : Z := i.

(** In the second the cursor follows the buffer, as the two are declared
    in hal.c: its four bytes, lowest first, are at the offsets 128 to
    131, and a byte stored there replaces the byte of the cursor. *)
Definition cursor_after_buffer (off v i : Z) : Z :=
  if (PI_LIBC_PUTC_BUFFER_SIZE <=? off) && (off <? PI_LIBC_PUTC_BUFFER_SIZE + 4)
  then
    let k := 8 * (off - PI_LIBC_PUTC_BUFFER_SIZE) in
    let u := i mod 2 ^ 32 in
    to_int (u - (u / 2 ^ k) mod 2 ^ 8 * 2 ^ k + v mod 2 ^ 8 * 2 ^ k)
  else i.

(** The bytes appended and not yet handed to the host, from the
    arguments of the calls made so far: the specification of what the
    cursor delimits. *)
Definition pending_step (acc : list Z) (c : Z) : list Z :=
  if (Z.of_nat (length acc) + 1 =? PI_LIBC_PUTC_BUFFER_SIZE) || (c =? 10)
  then []
  else acc ++ [to_char c].

Definition pending (cs : list Z) : list Z := fold_left pending_step cs [].

(** The characters of a C string: the bytes before the first NUL. *)
Fixpoint c_string (s : list Z) : list Z :=
  match s with
  | [] => []
  | c :: s' => if c =? 0 then [] else c :: c_string s'
  end.

(** A mock host reading a three-word block back as
    (descriptor, address, length): the descriptor and the length are
    [int]s, the address is a word. *)
Definition decode_block (a1 : trap_arg) : option (Z * Z * Z) :=
  match a1 with
  | Block [fd; addr; len] => Some (to_int fd, addr, to_int len)
  | _ => None
  end.

(** All the bytes the host has read from the console so far, in the
    order of the traps. *)
Definition sent (buffer_addr : Z) (w : world) : list Z :=
  concat (map (transmitted buffer_addr) (traps w)).

(** ** Values for concrete runs *)

(** A host that answers 0 to everything, and an address for the buffer
    in the L2 memory of pulp_open. *)
Definition demo_host : list event -> Z := fun _ => 0.
Definition demo_addr : Z := 0x1c010000.

(** A host that answers -1, the error indicator, to everything. *)
Definition refusing_host : list event -> Z := fun _ => -1.

(** Unfolds the monad's [mret] and [mbind] in the goal. *)
Ltac unfold_M := unfold mbind, M_bind, mret, M_ret.

(** ** Conversions that change nothing *)

Lemma pow2_xlen_ge (xlen : Z) : 32 <= xlen -> 2 ^ 32 <= 2 ^ xlen.
Proof. intros H. apply Z.pow_le_mono_r; lia. Qed.

Lemma pow2_xlen_half (xlen : Z) : 32 <= xlen -> 2 ^ xlen = 2 * 2 ^ (xlen - 1).
Proof.
  intros H. replace xlen with (Z.succ (xlen - 1)) at 1 by lia.
  rewrite Z.pow_succ_r by lia. reflexivity.
Qed.

Lemma to_uint_t_of_long (xlen x : Z) :
  32 <= xlen -> to_uint_t xlen (to_long xlen x) = to_uint_t xlen x.
Proof.
  intros H. unfold to_uint_t, to_long.
  rewrite Zminus_mod_idemp_l. f_equal. lia.
Qed.

Lemma to_uint_t_small (xlen x : Z) :
  uint_t_range xlen x -> to_uint_t xlen x = x.
Proof. intros H. unfold to_uint_t. apply Z.mod_small, H. Qed.

Lemma to_long_small (xlen x : Z) :
  32 <= xlen -> int_range x -> to_long xlen x = x.
Proof.
  intros H [Hlo Hhi]. unfold to_long.
  pose proof (pow2_xlen_ge xlen H) as Hp.
  pose proof (pow2_xlen_half xlen H) as Hh.
  change (2 ^ 32) with 4294967296 in Hp. change (2 ^ 31) with 2147483648 in *.
  rewrite Z.mod_small; lia.
Qed.

Lemma to_int_small (x : Z) : int_range x -> to_int x = x.
Proof.
  intros [Hlo Hhi]. unfold to_int.
  change (2 ^ 31) with 2147483648 in *. change (2 ^ 32) with 4294967296.
  rewrite Z.mod_small; lia.
Qed.

Lemma to_int_of_uint_t (xlen x : Z) :
  32 <= xlen -> int_range x -> to_int (to_uint_t xlen x) = x.
Proof.
  intros H Hx. rewrite <- (to_int_small x Hx) at 2.
  unfold to_int, to_uint_t. f_equal.
  assert (Hd : (2 ^ 32 | 2 ^ xlen)).
  { exists (2 ^ (xlen - 32)). rewrite <- Z.pow_add_r by lia. f_equal. lia. }
  rewrite <- Zplus_mod_idemp_l.
  rewrite Z.mod_mod_divide by assumption.
  apply Zplus_mod_idemp_l.
Qed.

(** A character value is stored as it is. *)
Lemma to_char_byte (c : Z) : 0 <= c < 256 -> to_char c = c.
Proof. intros H. unfold to_char. apply Z.mod_small. exact H. Qed.

Lemma small_uint_t (xlen x : Z) :
  32 <= xlen -> 0 <= x < 2 ^ 31 -> uint_t_range xlen x.
Proof.
  intros H [Hlo Hhi]. pose proof (pow2_xlen_ge xlen H) as Hp.
  change (2 ^ 32) with 4294967296 in Hp. change (2 ^ 31) with 2147483648 in *.
  unfold uint_t_range. lia.
Qed.

(** A non-negative [int] goes through [(uint_t)(long)] unchanged. *)
Lemma cast_word_small (xlen x : Z) :
  32 <= xlen -> 0 <= x < 2 ^ 31 -> to_uint_t xlen (to_long xlen x) = x.
Proof.
  intros H Hx. rewrite to_uint_t_of_long by assumption.
  apply to_uint_t_small, small_uint_t; assumption.
Qed.

(** An address goes through [(uint_t)(long)] unchanged. *)
Lemma cast_word_addr (xlen a : Z) :
  32 <= xlen -> uint_t_range xlen a -> to_uint_t xlen (to_long xlen a) = a.
Proof.
  intros H Ha. rewrite to_uint_t_of_long by assumption.
  apply to_uint_t_small, Ha.
Qed.

(** ** One call of [__pi_libc_fputc_safe] *)

Section Step.

Variable xlen : Z.
Variable host : list event -> Z.
Variable buffer_addr : Z.
Variable layout : Z -> Z -> Z -> Z.

Abbreviation fputc_safe := (__pi_libc_fputc_safe xlen host buffer_addr layout).

(** The call, statement by statement. *)
Lemma fputc_safe_step (c stream : Z) (w : world) :
  let i := __pi_libc_buffer_index w in
  let b1 := poke i (to_char c) (__pi_libc_buffer w) in
  let i1 := to_int (cursor_after_store layout i (to_char c) i + 1) in
  let b2 := poke i1 0 b1 in
  let i2 := cursor_after_store layout i1 0 i1 in
  fputc_safe c stream w =
    if (i1 =? PI_LIBC_PUTC_BUFFER_SIZE) || (c =? 10)
    then (0, World b2 0
               (trace w ++ [EvStore i (to_char c)] ++ [EvStore i1 0] ++
                [EvTrap SEMIHOSTING_SYS_WRITE
                   (Block [to_uint_t xlen (to_long xlen 1);
                           to_uint_t xlen (to_long xlen buffer_addr);
                           to_uint_t xlen (to_long xlen i2)]) b2]))
    else (0, World b1 i1 (trace w ++ [EvStore i (to_char c)])).
Proof.
  intros i b1 i1 b2 i2.
  unfold __pi_libc_fputc_safe, load_index, store_buffer, store_index;
    unfold_M; cbn [__pi_libc_buffer __pi_libc_buffer_index trace].
  fold i. fold b1. fold i1.
  destruct ((i1 =? PI_LIBC_PUTC_BUFFER_SIZE) || (c =? 10)); [|reflexivity].
  unfold __pi_libc_write, __pi_libc_semihost_write, __pi_libc_semihost;
    unfold_M; cbn [__pi_libc_buffer __pi_libc_buffer_index trace].
  fold b2. fold i2. rewrite <- !app_assoc. reflexivity.
Qed.

Lemma cursor_after_store_inside (off v i : Z) :
  0 <= off < PI_LIBC_PUTC_BUFFER_SIZE ->
  cursor_after_store layout off v i = i.
Proof.
  intros H. unfold cursor_after_store, PI_LIBC_PUTC_BUFFER_SIZE in *.
  replace ((0 <=? off) && (off <? 128)) with true
    by (symmetry; apply andb_true_iff; split; lia).
  reflexivity.
Qed.

Hypothesis xlen_ge_32 : 32 <= xlen.
Hypothesis buffer_addr_word : uint_t_range xlen buffer_addr.

(** With the cursor inside the array the increment does not wrap, and
    1 and the address are in the block as they are.  The length word is
    the cursor read again after the zero was stored. *)
Lemma fputc_safe_flush (c stream : Z) (w : world) :
  let i := __pi_libc_buffer_index w in
  let b2 := poke (i + 1) 0 (poke i (to_char c) (__pi_libc_buffer w)) in
  let i2 := cursor_after_store layout (i + 1) 0 (i + 1) in
  0 <= i < PI_LIBC_PUTC_BUFFER_SIZE ->
  i + 1 = PI_LIBC_PUTC_BUFFER_SIZE \/ c = 10 ->
  fputc_safe c stream w =
    (0, World b2 0
          (trace w ++ [EvStore i (to_char c); EvStore (i + 1) 0;
                       EvTrap SEMIHOSTING_SYS_WRITE
                         (Block [1; buffer_addr;
                                 to_uint_t xlen (to_long xlen i2)]) b2])).
Proof.
  intros i b2 i2 Hi Hc. rewrite fputc_safe_step. fold i.
  rewrite (cursor_after_store_inside i) by assumption.
  unfold PI_LIBC_PUTC_BUFFER_SIZE in *.
  assert (Hint : to_int (i + 1) = i + 1).
  { apply to_int_small. unfold int_range. change (2 ^ 31) with 2147483648. lia. }
  rewrite Hint.
  assert (Hcond : (i + 1 =? 128) || (c =? 10) = true).
  { apply orb_true_iff. destruct Hc; [left|right]; lia. }
  rewrite Hcond.
  rewrite (cast_word_small xlen 1), (cast_word_addr xlen buffer_addr);
    try assumption; change (2 ^ 31) with 2147483648; try lia.
  reflexivity.
Qed.

Lemma fputc_safe_keep (c stream : Z) (w : world) :
  let i := __pi_libc_buffer_index w in
  0 <= i < PI_LIBC_PUTC_BUFFER_SIZE ->
  i + 1 <> PI_LIBC_PUTC_BUFFER_SIZE -> c <> 10 ->
  fputc_safe c stream w =
    (0, World (poke i (to_char c) (__pi_libc_buffer w)) (i + 1)
          (trace w ++ [EvStore i (to_char c)])).
Proof.
  intros i Hi Hn Hc. rewrite fputc_safe_step. fold i.
  rewrite (cursor_after_store_inside i) by assumption.
  unfold PI_LIBC_PUTC_BUFFER_SIZE in *.
  assert (Hint : to_int (i + 1) = i + 1).
  { apply to_int_small. unfold int_range. change (2 ^ 31) with 2147483648. lia. }
  rewrite Hint.
  assert (Hcond : (i + 1 =? 128) || (c =? 10) = false).
  { apply orb_false_iff. split; lia. }
  rewrite Hcond. reflexivity.
Qed.

(** Below the last slot the length word is the advanced cursor. *)
Lemma length_word_inside (i : Z) :
  0 <= i -> i + 1 < PI_LIBC_PUTC_BUFFER_SIZE ->
  to_uint_t xlen (to_long xlen (cursor_after_store layout (i + 1) 0 (i + 1)))
    = i + 1.
Proof.
  intros H0 H1. rewrite cursor_after_store_inside by lia.
  apply cast_word_small; [assumption|].
  unfold PI_LIBC_PUTC_BUFFER_SIZE in *. change (2 ^ 31) with 2147483648. lia.
Qed.

End Step.

(** ** The array under [poke] *)

Lemma length_poke (off v : Z) (buf : list Z) :
  length (poke off v buf) = length buf.
Proof. unfold poke. case_match; [apply length_insert | reflexivity]. Qed.

Lemma take_poke_ge (n : nat) (off v : Z) (buf : list Z) :
  (n <= Z.to_nat off)%nat -> take n (poke off v buf) = take n buf.
Proof.
  intros H. unfold poke. case_match; [|reflexivity].
  apply take_insert_ge, H.
Qed.

Lemma take_poke_snoc (off v : Z) (buf : list Z) :
  0 <= off < PI_LIBC_PUTC_BUFFER_SIZE ->
  length buf = Z.to_nat PI_LIBC_PUTC_BUFFER_SIZE ->
  take (Z.to_nat (off + 1)) (poke off v buf) = take (Z.to_nat off) buf ++ [v].
Proof.
  intros Hoff Hlen. unfold poke, PI_LIBC_PUTC_BUFFER_SIZE in *.
  replace ((0 <=? off) && (off <? 128)) with true
    by (symmetry; apply andb_true_iff; split; lia).
  replace (Z.to_nat (off + 1)) with (S (Z.to_nat off)) by lia.
  rewrite (take_S_r _ _ v).
  - rewrite take_insert_ge by lia. reflexivity.
  - apply list_lookup_insert_eq. lia.
Qed.

Lemma traps_snoc_store (b : list Z) (i : Z) (tr : list event) (off v : Z) :
  traps (World b i (tr ++ [EvStore off v])) = filter is_trap tr.
Proof.
  unfold traps; cbn [trace]. rewrite filter_app. cbn. apply app_nil_r.
Qed.

(** ** Sequences of calls *)

Section Console.

Variable xlen : Z.
Variable host : list event -> Z.
Variable buffer_addr : Z.
Variable layout : Z -> Z -> Z -> Z.

Abbreviation fputc_safe := (__pi_libc_fputc_safe xlen host buffer_addr layout).
Abbreviation feed := (put_chars xlen host buffer_addr layout).
Abbreviation idx := __pi_libc_buffer_index.
Abbreviation buf := __pi_libc_buffer.
Abbreviation SIZE := PI_LIBC_PUTC_BUFFER_SIZE.

Lemma exec_feed_cons (c : Z) (cs : list Z) (w : world) :
    exec (feed (c :: cs)) w = exec (feed cs) (exec (fputc_safe c NULL) w).
Proof.
    unfold exec. cbn [put_chars]. unfold_M.
    destruct (fputc_safe c NULL w). reflexivity.
Qed.

Lemma exec_feed_app (cs1 cs2 : list Z) (w : world) :
    exec (feed (cs1 ++ cs2)) w = exec (feed cs2) (exec (feed cs1) w).
Proof.
    revert w. induction cs1 as [|c cs1 IH]; intros w.
    - reflexivity.
    - rewrite <- app_comm_cons, !exec_feed_cons. apply IH.
Qed.

  (** A call only adds to the trace. *)
Lemma trace_fputc_safe (c stream : Z) (w : world) :
    exists evs, trace (exec (fputc_safe c stream) w) = trace w ++ evs.
Proof.
    unfold exec. rewrite fputc_safe_step. case_match; eexists; reflexivity.
Qed.

Lemma trace_feed (cs : list Z) (w : world) :
    exists evs, trace (exec (feed cs) w) = trace w ++ evs.
Proof.
    revert w. induction cs as [|c cs IH]; intros w.
    - exists []. symmetry. apply app_nil_r.
    - rewrite exec_feed_cons.
      destruct (trace_fputc_safe c NULL w) as [e1 H1].
      destruct (IH (exec (fputc_safe c NULL) w)) as [e2 H2].
      exists (e1 ++ e2). rewrite H2, H1. symmetry. apply app_assoc.
Qed.

Lemma traps_feed (cs : list Z) (w : world) :
    exists ts, traps (exec (feed cs) w) = traps w ++ ts.
Proof.
    destruct (trace_feed cs w) as [evs H]. unfold traps.
    rewrite H, filter_app. eexists; reflexivity.
Qed.

Hypothesis xlen_ge_32 : 32 <= xlen.
Hypothesis buffer_addr_word : uint_t_range xlen buffer_addr.

  (** Calls that stay below the capacity and carry no newline: the bytes
      go to consecutive slots and the host is not asked anything. *)
Lemma feed_keep (cs : list Z) : forall w : world,
    Forall (fun c => c <> 10) cs ->
    0 <= idx w ->
    idx w + Z.of_nat (length cs) < SIZE ->
    length (buf w) = Z.to_nat SIZE ->
    let w' := exec (feed cs) w in
    idx w' = idx w + Z.of_nat (length cs) /\
    traps w' = traps w /\
    length (buf w') = Z.to_nat SIZE /\
    take (Z.to_nat (idx w')) (buf w') =
      take (Z.to_nat (idx w)) (buf w) ++ map to_char cs /\
    Forall (fun e => store_in_bounds e = true)
      (drop (length (trace w)) (trace w')).
Proof.
    induction cs as [|c cs IH]; intros w Hnl Hlo Hhi Hlen; cbn zeta.
    - cbn [length map put_chars]. unfold exec, mret, M_ret; cbn [snd].
      rewrite Z.add_0_r, app_nil_r, drop_all. auto.
    - apply Forall_cons in Hnl as [Hc Hnl].
      cbn [length] in Hhi. rewrite exec_feed_cons.
      assert (E : exec (fputc_safe c NULL) w =
                  World (poke (idx w) (to_char c) (buf w)) (idx w + 1)
                        (trace w ++ [EvStore (idx w) (to_char c)])).
      { unfold exec. rewrite fputc_safe_keep by (unfold SIZE in *; lia).
        reflexivity. }
      rewrite E. set (w1 := World _ _ _).
      assert (Hi1 : idx w1 = idx w + 1) by reflexivity.
      assert (Hb1 : buf w1 = poke (idx w) (to_char c) (buf w)) by reflexivity.
      assert (Ht1 : trace w1 = trace w ++ [EvStore (idx w) (to_char c)])
        by reflexivity.
      destruct (IH w1 Hnl) as (Hi & Ht & Hl & Hk & Hs).
      + lia.
      + lia.
      + rewrite Hb1, length_poke. exact Hlen.
      + repeat split.
        * rewrite Hi, Hi1. cbn [length]. lia.
        * rewrite Ht. unfold w1. apply traps_snoc_store.
        * exact Hl.
        * rewrite Hk, Hi1, Hb1.
          rewrite take_poke_snoc by (unfold SIZE in *; try lia; assumption).
          rewrite <- app_assoc. reflexivity.
        * destruct (trace_feed cs w1) as [evs Hevs].
          rewrite Hevs in Hs |- *. rewrite drop_app_length in Hs.
          rewrite Ht1, <- app_assoc, drop_app_length.
          apply Forall_app; split; [|exact Hs].
          apply Forall_singleton. cbn. unfold SIZE in *.
          apply andb_true_iff; split; lia.
Qed.

(** A call that flushes: the two stores, then the trap.  The buffer the
    host finds holds the pending bytes and the new one.  The length word
    is the cursor read again after the zero was stored: below the last
    slot it is the advanced cursor, and the host reads the pending bytes
    and the new one. *)
Lemma flush_call (c stream : Z) (w : world) :
  0 <= idx w < SIZE ->
  length (buf w) = Z.to_nat SIZE ->
  idx w + 1 = SIZE \/ c = 10 ->
  let w' := exec (fputc_safe c stream) w in
  exists (lw : Z) (mem : list Z),
    let e := EvTrap SEMIHOSTING_SYS_WRITE (Block [1; buffer_addr; lw]) mem in
    trace w' = trace w ++ [EvStore (idx w) (to_char c); EvStore (idx w + 1) 0; e] /\
    traps w' = traps w ++ [e] /\
    idx w' = 0 /\
    length (buf w') = Z.to_nat SIZE /\
    length mem = Z.to_nat SIZE /\
    take (Z.to_nat (idx w + 1)) mem = take (Z.to_nat (idx w)) (buf w) ++ [to_char c] /\
    lw = to_uint_t xlen
           (to_long xlen (cursor_after_store layout (idx w + 1) 0 (idx w + 1))) /\
    (idx w + 1 < SIZE ->
       lw = idx w + 1 /\
       transmitted buffer_addr e = take (Z.to_nat (idx w)) (buf w) ++ [to_char c] /\
       mem = <[Z.to_nat (idx w + 1) := 0]>
               (<[Z.to_nat (idx w) := to_char c]> (buf w))).
Proof.
  intros Hi Hlen Hc; cbn zeta. unfold exec.
  rewrite fputc_safe_flush by assumption. cbn [snd].
  exists (to_uint_t xlen
            (to_long xlen (cursor_after_store layout (idx w + 1) 0 (idx w + 1)))),
         (poke (idx w + 1) 0 (poke (idx w) (to_char c) (buf w))).
  assert (Htake : take (Z.to_nat (idx w + 1))
                    (poke (idx w + 1) 0 (poke (idx w) (to_char c) (buf w))) =
                  take (Z.to_nat (idx w)) (buf w) ++ [to_char c]).
  { rewrite take_poke_ge by lia. apply take_poke_snoc; assumption. }
  split; [reflexivity|]. split.
  { unfold traps; cbn [trace]. rewrite filter_app. reflexivity. }
  split; [reflexivity|]. split.
  { cbn [__pi_libc_buffer]. rewrite !length_poke. exact Hlen. }
  split. { rewrite !length_poke. exact Hlen. }
  split; [exact Htake|]. split; [reflexivity|].
  intros Hin. rewrite length_word_inside by lia.
  split; [reflexivity|]. split.
  - unfold transmitted. rewrite Z.eqb_refl, Z.sub_diag.
    change (Z.to_nat 0) with 0%nat. rewrite drop_0. exact Htake.
  - unfold poke, SIZE, PI_LIBC_PUTC_BUFFER_SIZE in *.
    replace ((0 <=? idx w + 1) && (idx w + 1 <? 128)) with true
      by (symmetry; apply andb_true_iff; split; lia).
    replace ((0 <=? idx w) && (idx w <? 128)) with true
      by (symmetry; apply andb_true_iff; split; lia).
    reflexivity.
Qed.

Lemma exec_feed_snoc (cs : list Z) (c : Z) (w : world) :
  exec (feed (cs ++ [c])) w = exec (fputc_safe c NULL) (exec (feed cs) w).
Proof. rewrite exec_feed_app, exec_feed_cons. reflexivity. Qed.

Lemma init_length : length (buf init) = Z.to_nat SIZE.
Proof. apply length_replicate. Qed.

(** X15: calls from the initial state whose first newline is call number
    [k] (counted from 0), with the newline below the last slot
    ([k + 1 < 128]), whatever the layout: no trap before that call; after
    it the traps are exactly one SYS_WRITE with the block (1, address of
    the buffer, [k + 1]); the host reads [k + 1] bytes, the characters of
    the calls in order, the newline last; the cursor is back at 0; and
    whatever is called afterwards, this trap stays the first. *)
Theorem newline_flushes_once (pre : list Z) (k : Z) :
  Forall (fun c => c <> 10) pre ->
  Z.of_nat (length pre) = k ->
  k + 1 < SIZE ->
  exists mem : list Z,
    let e := EvTrap SEMIHOSTING_SYS_WRITE (Block [1; buffer_addr; k + 1]) mem in
    traps (exec (feed pre) init) = [] /\
    traps (exec (feed (pre ++ [10])) init) = [e] /\
    transmitted buffer_addr e = map to_char pre ++ [10] /\
    length (transmitted buffer_addr e) = Z.to_nat (k + 1) /\
    idx (exec (feed (pre ++ [10])) init) = 0 /\
    forall post : list Z, exists later : list event,
      traps (exec (feed (pre ++ 10 :: post)) init) = e :: later.
Proof.
  intros Hnl Hk Hlt.
  destruct (feed_keep pre init Hnl) as (Hi & Ht & Hl & Hb & _).
  { reflexivity. } { cbn [idx init]. lia. } { apply init_length. }
  cbn [idx init] in Hi. rewrite Z.add_0_l, Hk in Hi.
  change (take (Z.to_nat (idx init)) (buf init)) with (@nil Z) in Hb.
  rewrite app_nil_l in Hb.
  destruct (flush_call 10 NULL (exec (feed pre) init))
    as (lw & mem & Htr & Htp & Hi0 & _ & _ & _ & _ & Hin).
  { rewrite Hi. lia. } { exact Hl. } { right; reflexivity. }
  rewrite Hi in Hin. destruct (Hin Hlt) as (Hlw & Hx & _). subst lw.
  rewrite Hi in Hb. rewrite Hb in Hx. rewrite Ht in Htp.
  change (to_char 10) with 10 in Hx.
  exists mem. cbn zeta. rewrite exec_feed_snoc.
  split; [exact Ht|]. split; [exact Htp|]. split; [exact Hx|].
  split. { rewrite Hx, length_app, length_map. cbn [length]. lia. }
  split; [exact Hi0|].
  intros post.
  replace (pre ++ 10 :: post) with ((pre ++ [10]) ++ post)
    by (rewrite <- app_assoc; reflexivity).
  rewrite exec_feed_app, exec_feed_snoc.
  destruct (traps_feed post (exec (fputc_safe 10 NULL) (exec (feed pre) init)))
    as [ts Hts].
  exists ts. rewrite Hts, Htp. reflexivity.
Qed.

(** X16: exactly 128 calls from the initial state, none with a newline,
    whatever the layout: no trap during the first 127; the 128th brings
    exactly one SYS_WRITE on descriptor 1 at the address of the buffer;
    the buffer the host finds holds the 128 characters of the calls in
    order; the length word is the cursor as it reads after the zero was
    stored at offset 128, so it is 128 exactly when that store leaves
    the cursor as it was; the cursor is back at 0. *)
Theorem capacity_flush_length (cs : list Z) :
  Forall (fun c => c <> 10) cs ->
  length cs = Z.to_nat SIZE ->
  exists mem : list Z,
    let lw := to_uint_t xlen (to_long xlen (layout SIZE 0 SIZE)) in
    let e := EvTrap SEMIHOSTING_SYS_WRITE (Block [1; buffer_addr; lw]) mem in
    (forall n : nat, (n < length cs)%nat ->
       traps (exec (feed (take n cs)) init) = []) /\
    traps (exec (feed cs) init) = [e] /\
    mem = map to_char cs /\
    transmitted buffer_addr e = take (Z.to_nat lw) (map to_char cs) /\
    idx (exec (feed cs) init) = 0.
Proof.
  intros Hnl Hlen.
  destruct cs as [|c0 cs0] using rev_ind; [discriminate Hlen|clear IHcs0].
  rename cs0 into cs, c0 into c.
  rewrite length_app in Hlen. cbn [length] in Hlen.
  change (Z.to_nat SIZE) with 128%nat in Hlen.
  apply Forall_app in Hnl as [Hnl _].
  destruct (feed_keep cs init Hnl) as (Hi & Ht & Hl & Hb & _).
  { reflexivity. } { cbn [idx init]. unfold SIZE. lia. } { apply init_length. }
  cbn [idx init] in Hi. rewrite Z.add_0_l in Hi.
  change (take (Z.to_nat (idx init)) (buf init)) with (@nil Z) in Hb.
  rewrite app_nil_l in Hb.
  destruct (flush_call c NULL (exec (feed cs) init))
    as (lw & mem & Htr & Htp & Hi0 & _ & Hml & Hmem & Hlw & _).
  { rewrite Hi. unfold SIZE. lia. } { exact Hl. }
  { left. rewrite Hi. unfold SIZE. lia. }
  rewrite Hi in Hb, Hmem, Hlw. rewrite Hb in Hmem. rewrite Ht in Htp.
  replace (Z.of_nat (length cs) + 1) with SIZE in Hmem, Hlw
    by (unfold SIZE; lia).
  rewrite take_ge in Hmem by (rewrite Hml; reflexivity).
  change (cursor_after_store layout SIZE 0 SIZE) with (layout SIZE 0 SIZE) in Hlw.
  subst lw.
  exists mem. cbn zeta. rewrite exec_feed_snoc.
  split.
  { intros n Hn. rewrite length_app in Hn. cbn [length] in Hn.
    rewrite take_app_le by lia.
    destruct (feed_keep (take n cs) init) as (_ & Ht' & _).
    - apply Forall_take, Hnl.
    - reflexivity.
    - cbn [idx init]. rewrite length_take. unfold SIZE. lia.
    - apply init_length.
    - exact Ht'. }
  split; [exact Htp|].
  rewrite map_app. cbn [map]. split; [exact Hmem|].
  split; [|exact Hi0].
  unfold transmitted. rewrite Z.eqb_refl, Z.sub_diag.
  change (Z.to_nat 0) with 0%nat. rewrite drop_0, Hmem. reflexivity.
Qed.

(** ** Reachable states *)

Lemma flush_cond_spec (i c : Z) :
  (i + 1 =? SIZE) || (c =? 10) = true <-> i + 1 = SIZE \/ c = 10.
Proof. rewrite orb_true_iff, !Z.eqb_eq. reflexivity. Qed.

Lemma flush_or_keep (i c : Z) :
  {i + 1 = SIZE \/ c = 10} + {i + 1 <> SIZE /\ c <> 10}.
Proof.
  destruct (Z.eq_dec (i + 1) SIZE); [left; left; assumption|].
  destruct (Z.eq_dec c 10); [left; right; assumption|].
  right; split; assumption.
Qed.

Lemma exec_keep (c stream : Z) (w : world) :
  0 <= idx w < SIZE -> idx w + 1 <> SIZE -> c <> 10 ->
  exec (fputc_safe c stream) w =
    World (poke (idx w) (to_char c) (buf w)) (idx w + 1)
          (trace w ++ [EvStore (idx w) (to_char c)]).
Proof.
  intros Hi Hn Hc. unfold exec. rewrite fputc_safe_keep by assumption.
  reflexivity.
Qed.

(** Between calls the cursor is inside the array, and the array keeps
    its 128 bytes. *)
Lemma reachable_inv (w : world) :
  reachable xlen host buffer_addr layout w ->
  0 <= idx w < SIZE /\ length (buf w) = Z.to_nat SIZE.
Proof.
  induction 1 as [|c stream w Hw [Hi Hl]].
  - split; [cbn; unfold SIZE; lia | apply init_length].
  - destruct (flush_or_keep (idx w) c) as [Hf | [Hn Hc]].
    + destruct (flush_call c stream w Hi Hl Hf) as (lw & mem & _ & _ & Hi0 & Hl' & _).
      rewrite Hi0. split; [unfold SIZE; lia | exact Hl'].
    + rewrite exec_keep by assumption. cbn [idx buf].
      rewrite length_poke. split; [lia | exact Hl].
Qed.

Lemma reachable_feed (cs : list Z) : forall w : world,
  reachable xlen host buffer_addr layout w ->
  reachable xlen host buffer_addr layout (exec (feed cs) w).
Proof.
  induction cs as [|c cs IH]; intros w Hw.
  - exact Hw.
  - rewrite exec_feed_cons. apply IH. constructor. exact Hw.
Qed.

Lemma pending_snoc (cs : list Z) (c : Z) :
  pending (cs ++ [c]) = pending_step (pending cs) c.
Proof. unfold pending. rewrite fold_left_app. reflexivity. Qed.

(** The cursor counts the bytes not yet handed to the host, and these
    bytes are the ones below the cursor. *)
Lemma feed_pending (cs : list Z) :
  let w := exec (feed cs) init in
  idx w = Z.of_nat (length (pending cs)) /\
  take (Z.to_nat (idx w)) (buf w) = pending cs.
Proof.
  induction cs as [|c cs [IHi IHb]] using rev_ind; cbn zeta.
  - split; reflexivity.
  - pose proof (reachable_inv _ (reachable_feed cs init (reachable_init _ _ _ _)))
      as [Hi Hl].
    rewrite exec_feed_snoc, pending_snoc. unfold pending_step. rewrite <- IHi.
    destruct (flush_or_keep (idx (exec (feed cs) init)) c) as [Hf | [Hn Hc]].
    + rewrite (proj2 (flush_cond_spec _ _) Hf).
      destruct (flush_call c NULL _ Hi Hl Hf) as (lw & mem & _ & _ & Hi0 & _).
      rewrite Hi0. split; reflexivity.
    + replace ((idx (exec (feed cs) init) + 1 =? SIZE) || (c =? 10)) with false
        by (symmetry; apply orb_false_iff; split; apply Z.eqb_neq; assumption).
      rewrite exec_keep by assumption. cbn [idx buf].
      rewrite length_app, <- IHb. cbn [length]. split.
      * rewrite IHi at 1. rewrite IHb. lia.
      * rewrite take_poke_snoc by assumption. reflexivity.
Qed.

(** C4, amended: in every state reached by calls from the initial one
    the cursor is between 0 and the capacity; the cursor is the number of
    bytes appended and not yet flushed, these bytes lie below it, and the
    next call stores its byte at the cursor; a call brings one trap (a
    SYS_WRITE on descriptor 1 at the address of the buffer) and the
    cursor back to 0 exactly when the advanced cursor is the capacity or
    the [int] argument of the call is 10, and otherwise brings no trap
    and advances the cursor by one; for an argument from 0 to 255 the
    byte appended is the argument itself; calls without such an argument,
    fewer than the capacity, bring no trap.  This holds whatever the
    layout. *)
Theorem cursor_invariant :
  (forall w : world, reachable xlen host buffer_addr layout w -> 0 <= idx w <= SIZE) /\
  (forall cs : list Z,
     let w := exec (feed cs) init in
     idx w = Z.of_nat (length (pending cs)) /\
     take (Z.to_nat (idx w)) (buf w) = pending cs) /\
  (forall (w : world) (c stream : Z),
     reachable xlen host buffer_addr layout w ->
     let w' := exec (fputc_safe c stream) w in
     (exists evs : list event,
        trace w' = trace w ++ EvStore (idx w) (to_char c) :: evs) /\
     (idx w + 1 = SIZE \/ c = 10 ->
        (exists (lw : Z) (mem : list Z),
           traps w' = traps w ++
             [EvTrap SEMIHOSTING_SYS_WRITE (Block [1; buffer_addr; lw]) mem] /\
           (idx w + 1 < SIZE -> lw = idx w + 1)) /\
        idx w' = 0) /\
     (~ (idx w + 1 = SIZE \/ c = 10) ->
        traps w' = traps w /\ idx w' = idx w + 1) /\
     (0 <= c < 256 -> to_char c = c)) /\
  (forall cs : list Z,
     Forall (fun c => c <> 10) cs ->
     Z.of_nat (length cs) < SIZE ->
     traps (exec (feed cs) init) = []).
Proof.
  split; [|split; [|split]].
  - intros w Hw. destruct (reachable_inv w Hw) as [Hi _]. lia.
  - exact feed_pending.
  - intros w c stream Hw. destruct (reachable_inv w Hw) as [Hi Hl]. cbn zeta.
    split; [|split; [|split]].
    + unfold exec. rewrite fputc_safe_step. case_match; eexists; reflexivity.
    + intros Hf.
      destruct (flush_call c stream w Hi Hl Hf)
        as (lw & mem & _ & Htp & Hi0 & _ & _ & _ & _ & Hin).
      split; [|exact Hi0]. exists lw, mem. split; [exact Htp|].
      intros Hlt. apply (Hin Hlt).
    + intros Hn.
      rewrite exec_keep; [|assumption|intros E; apply Hn; left; exact E
                          |intros E; apply Hn; right; exact E].
      split; [apply traps_snoc_store | reflexivity].
    + apply to_char_byte.
  - intros cs Hnl Hlen.
    destruct (feed_keep cs init Hnl) as (_ & Ht & _).
    + reflexivity.
    + cbn [idx init]. lia.
    + apply init_length.
    + exact Ht.
Qed.

(** X17: a call with a newline below the last slot, from a reachable
    state and whatever the layout, with [cursor] the advanced cursor:
    the character goes to [cursor - 1], a zero to [cursor], then comes
    SYS_WRITE with length word [cursor].  The buffer the host finds is
    the old one with these two bytes written, so the zero is at offset
    [cursor] in it, and the host reads the [cursor] bytes before it. *)
Theorem terminator_below_last_slot (stream : Z) (w : world) :
  reachable xlen host buffer_addr layout w ->
  idx w + 1 < SIZE ->
  let cursor := idx w + 1 in
  exists mem : list Z,
    let e := EvTrap SEMIHOSTING_SYS_WRITE (Block [1; buffer_addr; cursor]) mem in
    trace (exec (fputc_safe 10 stream) w) =
      trace w ++ [EvStore (idx w) 10; EvStore cursor 0; e] /\
    mem = <[Z.to_nat cursor := 0]> (<[Z.to_nat (idx w) := 10]> (buf w)) /\
    mem !! Z.to_nat cursor = Some 0 /\
    transmitted buffer_addr e = take (Z.to_nat (idx w)) (buf w) ++ [10] /\
    length (transmitted buffer_addr e) = Z.to_nat cursor.
Proof.
  intros Hw Hlt cursor. destruct (reachable_inv w Hw) as [Hi Hl].
  destruct (flush_call 10 stream w Hi Hl (or_intror eq_refl))
    as (lw & mem & Htr & _ & _ & _ & _ & _ & _ & Hin).
  destruct (Hin Hlt) as (Hlw & Hx & Hmem). subst lw.
  change (to_char 10) with 10 in *. fold cursor in Htr, Hx, Hmem.
  exists mem. split; [exact Htr|]. split; [exact Hmem|]. split; [|split].
  - rewrite Hmem. apply list_lookup_insert_eq.
    rewrite length_insert, Hl. unfold cursor, SIZE in *. lia.
  - exact Hx.
  - rewrite Hx, length_app, length_take, Hl. cbn [length].
    unfold cursor, SIZE in *. lia.
Qed.

(** The call that fills the last slot stores its zero at offset 128,
    which is no slot of the array. *)
Lemma capacity_call_store (c stream : Z) (w : world) :
  reachable xlen host buffer_addr layout w ->
  idx w + 1 = SIZE ->
  exists e : event,
    trace (exec (fputc_safe c stream) w) =
      trace w ++ [EvStore (idx w) (to_char c); EvStore SIZE 0; e] /\
    store_in_bounds (EvStore SIZE 0) = false.
Proof.
  intros Hw Hf. destruct (reachable_inv w Hw) as [Hi Hl].
  unfold exec. rewrite fputc_safe_flush by (try assumption; left; exact Hf).
  cbn [snd trace]. rewrite Hf. eexists. split; reflexivity.
Qed.

(** ** puts *)

Lemma c_string_no_nul (s : list Z) :
  Forall (fun c => c <> 0) s -> c_string s = s.
Proof.
  induction 1 as [|c s Hc _ IH]; [reflexivity|].
  cbn [c_string]. apply Z.eqb_neq in Hc. rewrite Hc, IH. reflexivity.
Qed.

Lemma feed_newline (w : world) :
  (__pi_libc_fputc_safe xlen host buffer_addr layout 10 NULL ;; mret tt) w =
    (tt, exec (feed [10]) w).
Proof.
  unfold exec. cbn [put_chars]. unfold_M.
  destruct (fputc_safe 10 NULL w). reflexivity.
Qed.

Lemma puts_loop_feed (s : list Z) : forall w : world,
  puts_loop xlen host buffer_addr layout s w = (tt, exec (feed (c_string s ++ [10])) w).
Proof.
  induction s as [|c s IH]; intros w; cbn [puts_loop c_string].
  - apply feed_newline.
  - destruct (c =? 0).
    + apply feed_newline.
    + rewrite <- app_comm_cons, exec_feed_cons. unfold_M. unfold exec at 2.
      destruct (fputc_safe c NULL w) as [r w1]. apply IH.
Qed.

(** C7: [puts(s)] makes the calls of [__pi_libc_fputc_safe] for the
    characters of [s] in order, the terminating NUL left out, then one
    call for a newline, and returns 0; a string without NUL among its
    listed bytes has all of them as characters; [puts("")] from the
    initial state brings one SYS_WRITE whose only byte is the newline. *)
Theorem puts_feeds_then_newline :
  (forall (s : list Z) (w : world),
     puts xlen host buffer_addr layout s w = (0, exec (feed (c_string s ++ [10])) w)) /\
  (forall s : list Z, Forall (fun c => c <> 0) s -> c_string s = s) /\
  (exists mem : list Z,
     let e := EvTrap SEMIHOSTING_SYS_WRITE (Block [1; buffer_addr; 1]) mem in
     puts xlen host buffer_addr layout [] init =
       (0, exec (fputc_safe 10 NULL) init) /\
     traps (exec (puts xlen host buffer_addr layout []) init) = [e] /\
     transmitted buffer_addr e = [10]).
Proof.
  assert (Hputs : forall (s : list Z) (w : world),
     puts xlen host buffer_addr layout s w = (0, exec (feed (c_string s ++ [10])) w)).
  { intros s w. unfold puts. unfold_M. rewrite puts_loop_feed. reflexivity. }
  split; [exact Hputs|]. split; [exact c_string_no_nul|].
  destruct (flush_call 10 NULL init)
    as (lw & mem & _ & Htp & _ & _ & _ & _ & _ & Hin).
  { cbn [idx init]. unfold SIZE. lia. } { apply init_length. } { right; reflexivity. }
  destruct Hin as (Hlw & Hx & _); [reflexivity|]. subst lw.
  exists mem. cbn zeta. split; [|split].
  - rewrite Hputs. reflexivity.
  - unfold exec at 1. rewrite Hputs. cbn [snd c_string app].
    rewrite exec_feed_cons. exact Htp.
  - exact Hx.
Qed.

(** ** Nothing is lost between the calls and the host *)

Lemma puts_feed (s : list Z) (w : world) :
  puts xlen host buffer_addr layout s w = (0, exec (feed (c_string s ++ [10])) w).
Proof. unfold puts. unfold_M. rewrite puts_loop_feed. reflexivity. Qed.

Lemma store_in_bounds_inside (off v : Z) :
  store_in_bounds (EvStore off v) = true -> 0 <= off < SIZE.
Proof.
  cbn. unfold SIZE, PI_LIBC_PUTC_BUFFER_SIZE.
  intros H. apply andb_true_iff in H. lia.
Qed.

(** One call that stores nothing outside the array adds its byte at the
    end of what was sent and what is pending, taken together. *)
Lemma call_sent (c stream : Z) (w : world) :
  reachable xlen host buffer_addr layout w ->
  let w' := exec (fputc_safe c stream) w in
  Forall (fun e => store_in_bounds e = true) (drop (length (trace w)) (trace w')) ->
  sent buffer_addr w' ++ take (Z.to_nat (idx w')) (buf w') =
    (sent buffer_addr w ++ take (Z.to_nat (idx w)) (buf w)) ++ [to_char c].
Proof.
  intros Hw; cbn zeta. destruct (reachable_inv w Hw) as [Hi Hl].
  destruct (flush_or_keep (idx w) c) as [Hf | [Hn Hc]].
  - destruct (flush_call c stream w Hi Hl Hf)
      as (lw & mem & Htr & Htp & Hi0 & _ & _ & _ & _ & Hin).
    intros Hs. rewrite Htr, drop_app_length in Hs.
    apply Forall_cons in Hs as [_ Hs]. apply Forall_cons in Hs as [Hs _].
    apply store_in_bounds_inside in Hs.
    destruct Hin as (_ & Hx & _); [lia|].
    unfold sent. rewrite Htp, map_app, concat_app. cbn [map concat].
    rewrite Hx, Hi0. change (Z.to_nat 0) with 0%nat.
    rewrite ?take_0, ?app_nil_r. apply app_assoc.
  - intros _. rewrite exec_keep by assumption. unfold sent.
    rewrite traps_snoc_store. cbn [idx buf].
    rewrite take_poke_snoc by assumption. apply app_assoc.
Qed.

Lemma feed_sent_from (cs : list Z) : forall w : world,
  reachable xlen host buffer_addr layout w ->
  let w' := exec (feed cs) w in
  Forall (fun e => store_in_bounds e = true) (drop (length (trace w)) (trace w')) ->
  sent buffer_addr w' ++ take (Z.to_nat (idx w')) (buf w') =
    (sent buffer_addr w ++ take (Z.to_nat (idx w)) (buf w)) ++ map to_char cs.
Proof.
  induction cs as [|c cs IH]; intros w Hw; cbn zeta.
  - intros _. cbn [map]. rewrite app_nil_r. reflexivity.
  - rewrite exec_feed_cons. intros Hs.
    destruct (trace_fputc_safe c NULL w) as [e1 H1].
    destruct (trace_feed cs (exec (fputc_safe c NULL) w)) as [e2 H2].
    rewrite H2, H1, <- app_assoc, drop_app_length in Hs.
    apply Forall_app in Hs as [Hs1 Hs2].
    rewrite (IH _ (reachable_call _ _ _ _ c NULL w Hw)).
    + rewrite (call_sent c NULL w Hw).
      * cbn [map]. rewrite <- !app_assoc. reflexivity.
      * rewrite H1, drop_app_length. exact Hs1.
    + rewrite H2, drop_app_length. exact Hs2.
Qed.

(** X1: after a sequence of calls from the initial state in which no
    store left the array, whatever the layout, the bytes the host has
    read, followed by the bytes below the cursor, are the characters of
    the calls, each once and in order; so the number of bytes read plus
    the cursor is the number of calls. *)
Theorem no_byte_lost (cs : list Z) :
  let w := exec (feed cs) init in
  Forall (fun e => store_in_bounds e = true) (trace w) ->
  sent buffer_addr w ++ take (Z.to_nat (idx w)) (buf w) = map to_char cs /\
  Z.of_nat (length (sent buffer_addr w)) + idx w = Z.of_nat (length cs).
Proof.
  cbn zeta. intros Hs.
  pose proof (feed_sent_from cs init (reachable_init _ _ _ _)) as H.
  cbn zeta in H. change (sent buffer_addr init) with (@nil Z) in H.
  change (take (Z.to_nat (idx init)) (buf init)) with (@nil Z) in H.
  cbn [app] in H. specialize (H Hs). split; [exact H|].
  destruct (reachable_inv _ (reachable_feed cs init (reachable_init _ _ _ _)))
    as [Hi Hl].
  apply (f_equal (@length Z)) in H.
  rewrite length_app, length_map, length_take, Hl in H.
  unfold SIZE in *. lia.
Qed.

(** X2: [puts(s)] from any reachable state, whatever the layout, returns
    0 and leaves the cursor at 0; when no store of it left the array, the
    host has then read what it had read before, the bytes that were
    pending, the characters of [s] and the newline, and nothing is
    pending. *)
Theorem puts_flushes_all (s : list Z) (w : world) :
  reachable xlen host buffer_addr layout w ->
  let w' := exec (puts xlen host buffer_addr layout s) w in
  result (puts xlen host buffer_addr layout s) w = 0 /\
  idx w' = 0 /\
  (Forall (fun e => store_in_bounds e = true)
     (drop (length (trace w)) (trace w')) ->
   sent buffer_addr w' =
     sent buffer_addr w ++ take (Z.to_nat (idx w)) (buf w) ++
     map to_char (c_string s) ++ [10]).
Proof.
  intros Hw; cbn zeta. unfold result, exec at 1 2 3. rewrite puts_feed.
  cbn [fst snd]. split; [reflexivity|].
  pose proof (feed_sent_from (c_string s ++ [10]) w Hw) as H. cbn zeta in H.
  rewrite exec_feed_snoc in H |- *.
  pose proof (reachable_feed (c_string s) w Hw) as Hw1.
  destruct (reachable_inv _ Hw1) as [Hi Hl].
  destruct (flush_call 10 NULL _ Hi Hl (or_intror eq_refl))
    as (_ & _ & _ & _ & Hi0 & _).
  rewrite Hi0 in H |- *. split; [reflexivity|].
  intros Hs. specialize (H Hs).
  change (Z.to_nat 0) with 0%nat in H. rewrite take_0, app_nil_r in H.
  rewrite H, map_app. cbn [map]. change (to_char 10) with 10.
  rewrite <- !app_assoc. reflexivity.
Qed.

(** X3: every trap the console has made in a reachable state, whatever
    the layout, is a SYS_WRITE on descriptor 1 at the address of the
    buffer, and the host finds the 128 bytes of the buffer; when no store
    left the array, the length word of each is between 1 and 127 and the
    host reads as many bytes as it says. *)
Theorem console_traps_are_writes (w : world) :
  reachable xlen host buffer_addr layout w ->
  Forall
    (fun e => exists (lw : Z) (mem : list Z),
       e = EvTrap SEMIHOSTING_SYS_WRITE (Block [1; buffer_addr; lw]) mem /\
       length mem = Z.to_nat SIZE)
    (traps w) /\
  (Forall (fun e => store_in_bounds e = true) (trace w) ->
   Forall
     (fun e => exists (len : Z) (mem : list Z),
        e = EvTrap SEMIHOSTING_SYS_WRITE (Block [1; buffer_addr; len]) mem /\
        1 <= len < SIZE /\
        length (transmitted buffer_addr e) = Z.to_nat len)
     (traps w)).
Proof.
  induction 1 as [|c stream w Hw [IH1 IH2]].
  - split; [constructor | intros _; constructor].
  - destruct (reachable_inv w Hw) as [Hi Hl].
    destruct (flush_or_keep (idx w) c) as [Hf | [Hn Hc]].
    + destruct (flush_call c stream w Hi Hl Hf)
        as (lw & mem & Htr & Htp & _ & _ & Hml & _ & _ & Hin).
      rewrite Htp, Htr. split.
      * apply Forall_app; split; [exact IH1|].
        apply Forall_singleton. exists lw, mem. split; [reflexivity | exact Hml].
      * intros Hs. apply Forall_app in Hs as [Hs0 Hs].
        apply Forall_cons in Hs as [_ Hs]. apply Forall_cons in Hs as [Hs _].
        apply store_in_bounds_inside in Hs.
        destruct Hin as (Hlw & Hx & _); [lia|]. subst lw.
        apply Forall_app; split; [exact (IH2 Hs0)|].
        apply Forall_singleton. exists (idx w + 1), mem.
        split; [reflexivity|]. split; [unfold SIZE in *; lia|].
        rewrite Hx, length_app, length_take, Hl. cbn [length].
        unfold SIZE in *. lia.
    + rewrite exec_keep by assumption. rewrite traps_snoc_store. cbn [trace].
      split; [exact IH1|].
      intros Hs. apply Forall_app in Hs as [Hs0 _]. exact (IH2 Hs0).
Qed.

(** X4: in a reachable state every store the console has made went to
    an offset inside the array, except the zero stored at offset 128 by a
    call that fills the last slot; no other offset and no other value
    leaves the array. *)
Theorem stores_stay_in_array (w : world) :
  reachable xlen host buffer_addr layout w ->
  Forall
    (fun e => match e with
              | EvStore off v => 0 <= off < SIZE \/ (off = SIZE /\ v = 0)
              | EvTrap _ _ _ => True
              end)
    (trace w).
Proof.
  induction 1 as [|c stream w Hw IH].
  - constructor.
  - destruct (reachable_inv w Hw) as [Hi Hl].
    destruct (flush_or_keep (idx w) c) as [Hf | [Hn Hc]].
    + destruct (flush_call c stream w Hi Hl Hf) as (lw & mem & Htr & _).
      rewrite Htr. apply Forall_app; split; [exact IH|].
      constructor; [left; exact Hi|].
      constructor.
      { destruct (Z.eq_dec (idx w + 1) SIZE) as [E|E]; [right | left];
          unfold SIZE in *; lia. }
      constructor; [exact I | constructor].
    + rewrite exec_keep by assumption. cbn [trace].
      apply Forall_app; split; [exact IH|].
      apply Forall_singleton. left. exact Hi.
Qed.

(** X5: calls without a newline from the initial state bring one trap
    for every 128 of them: after [n] such calls the host has been asked
    [n / 128] times and the cursor is [n mod 128]. *)
Theorem trap_count (cs : list Z) :
  Forall (fun c => c <> 10) cs ->
  let w := exec (feed cs) init in
  Z.of_nat (length (traps w)) = Z.of_nat (length cs) / SIZE /\
  idx w = Z.of_nat (length cs) mod SIZE.
Proof.
  induction cs as [|c cs IH] using rev_ind; intros Hnl; cbn zeta.
  - split; reflexivity.
  - apply Forall_app in Hnl as [Hnl Hc]. apply Forall_inv in Hc.
    destruct (IH Hnl) as [Ht Hm]. clear IH.
    pose proof (reachable_feed cs init (reachable_init _ _ _ _)) as Hw.
    destruct (reachable_inv _ Hw) as [Hi Hl].
    rewrite exec_feed_snoc, length_app. cbn [length].
    replace (Z.of_nat (length cs + 1)) with (Z.of_nat (length cs) + 1) by lia.
    set (n := Z.of_nat (length cs)) in *.
    set (w := exec (feed cs) init) in *.
    destruct (Z.eq_dec (idx w + 1) SIZE) as [E|E].
    + destruct (flush_call c NULL w Hi Hl (or_introl E))
        as (lw & mem & _ & Htp & Hi0 & _).
      rewrite Htp, Hi0, length_app. cbn [length].
      unfold SIZE in *. Z.div_mod_to_equations. lia.
    + rewrite exec_keep by assumption. rewrite traps_snoc_store.
      cbn [idx]. fold (traps w).
      unfold SIZE in *. Z.div_mod_to_equations. lia.
Qed.

(** X6: lines that with their newline stay below the last slot (at
    most 126 characters), each followed by a newline, from the initial
    state and whatever the layout: the host is asked once per line, and
    what it reads each time is that line with its newline; the cursor
    ends at 0. *)
Theorem one_write_per_line (lines : list (list Z)) :
  Forall (fun l => Forall (fun c => c <> 10) l /\ Z.of_nat (length l) + 1 < SIZE)
    lines ->
  let w := exec (feed (concat (map (fun l => l ++ [10]) lines))) init in
  map (transmitted buffer_addr) (traps w) =
    map (fun l => map to_char l ++ [10]) lines /\
  idx w = 0.
Proof.
  intros Hlines.
  assert (Hgen : forall w0 : world,
    idx w0 = 0 -> length (buf w0) = Z.to_nat SIZE ->
    let w := exec (feed (concat (map (fun l => l ++ [10]) lines))) w0 in
    map (transmitted buffer_addr) (traps w) =
      map (transmitted buffer_addr) (traps w0) ++
      map (fun l => map to_char l ++ [10]) lines /\
    idx w = 0).
  { induction Hlines as [|l ls [Hnl Hlen] _ IH]; intros w0 H0 Hl0; cbn zeta.
    - cbn [map concat app]. rewrite app_nil_r. split; [reflexivity | exact H0].
    - cbn [map concat]. rewrite exec_feed_app, exec_feed_snoc.
      destruct (feed_keep l w0 Hnl) as (Hi & Ht & Hl & Hb & _);
        [lia | lia | exact Hl0 |].
      rewrite H0 in Hi, Hb. change (Z.to_nat 0) with 0%nat in Hb.
      rewrite take_0, app_nil_l in Hb.
      destruct (flush_call 10 NULL (exec (feed l) w0))
        as (lw & mem & _ & Htp & Hi0 & Hl2 & _ & _ & _ & Hin);
        [lia | exact Hl | right; reflexivity |].
      destruct Hin as (_ & Hx & _); [lia|].
      rewrite Hb in Hx. change (to_char 10) with 10 in Hx.
      destruct (IH _ Hi0 Hl2) as [Hm Hz]. cbn zeta in Hm, Hz.
      split; [|exact Hz].
      rewrite Hm, Htp, Ht, map_app. cbn [map]. rewrite Hx, <- app_assoc.
      reflexivity. }
  destruct (Hgen init eq_refl init_length) as [Hm Hz].
  split; [exact Hm | exact Hz].
Qed.

(** X7: the flush test looks at the [int] argument, the store keeps its
    low byte.  A call whose argument is not 10 but has the low byte 10
    (266, say) puts a newline byte at the cursor without asking the
    host, unless the call fills the last slot. *)
Theorem newline_byte_without_flush (c stream : Z) (w : world) :
  reachable xlen host buffer_addr layout w ->
  idx w + 1 <> SIZE ->
  c <> 10 ->
  to_char c = 10 ->
  let w' := exec (fputc_safe c stream) w in
  traps w' = traps w /\
  idx w' = idx w + 1 /\
  buf w' !! Z.to_nat (idx w) = Some 10.
Proof.
  intros Hw Hn Hc Hb; cbn zeta. destruct (reachable_inv w Hw) as [Hi Hl].
  rewrite exec_keep by assumption.
  split; [apply traps_snoc_store|]. split; [reflexivity|].
  cbn [buf]. rewrite Hb. unfold poke.
  replace ((0 <=? idx w) && (idx w <? SIZE)) with true
    by (symmetry; apply andb_true_iff; split; lia).
  apply list_lookup_insert_eq. rewrite Hl. unfold SIZE in *. lia.
Qed.

(** ** putchar and fputc *)

Lemma putchar_all_feed (cs : list Z) : forall w : world,
  putchar_all xlen host buffer_addr layout cs w = feed cs w.
Proof.
  induction cs as [|c cs IH]; intros w; cbn [putchar_all put_chars].
  - reflexivity.
  - unfold putchar, fputc. unfold_M.
    destruct (fputc_safe c NULL w) as [r w1]. apply IH.
Qed.

(** X8: [fputc] and [putchar] return 0, not the character, and do not
    look at the stream; writing the characters of a string with [putchar]
    and then a newline leaves the console as [puts] of the string does. *)
Theorem putchar_line (s : list Z) (c stream : Z) (w : world) :
  Forall (fun c => c <> 0) s ->
  fputc xlen host buffer_addr layout c stream w = (0, exec (fputc_safe c NULL) w) /\
  putchar xlen host buffer_addr layout c w = fputc xlen host buffer_addr layout c stream w /\
  exec (putchar_all xlen host buffer_addr layout (s ++ [10])) w =
    exec (puts xlen host buffer_addr layout s) w.
Proof.
  intros Hs. split; [|split].
  - unfold fputc, exec. unfold_M. destruct (fputc_safe c NULL w). reflexivity.
  - reflexivity.
  - unfold exec. rewrite putchar_all_feed, puts_feed.
    rewrite (c_string_no_nul s Hs). reflexivity.
Qed.

(** X9: [puts] stops at the first NUL: the bytes that follow it in
    memory change neither the console nor the result. *)
Theorem puts_stops_at_nul (s rest : list Z) (w : world) :
  puts xlen host buffer_addr layout (s ++ 0 :: rest) w = puts xlen host buffer_addr layout s w.
Proof.
  assert (E : c_string (s ++ 0 :: rest) = c_string s).
  { induction s as [|c s IH]; [reflexivity|].
    cbn [app c_string]. destruct (c =? 0); [reflexivity|].
    rewrite IH. reflexivity. }
  rewrite !puts_feed, E. reflexivity.
Qed.

End Console.

(** ** The host's answer is not looked at *)

(** C8: the call returns 0 whatever the character, the state and the
    host; two hosts that answer the SYS_WRITE differently (a short count,
    a full count, an error) leave the same return value, the same buffer,
    the same cursor and the same requests. *)
Theorem fputc_safe_ignores_host
  (xlen buffer_addr : Z) (layout : Z -> Z -> Z -> Z)
  (host1 host2 : list event -> Z)
  (c stream : Z) (w : world) :
  result (__pi_libc_fputc_safe xlen host1 buffer_addr layout c stream) w = 0 /\
  __pi_libc_fputc_safe xlen host1 buffer_addr layout c stream w =
    __pi_libc_fputc_safe xlen host2 buffer_addr layout c stream w.
Proof.
  unfold result. rewrite !fputc_safe_step. split; [|reflexivity].
  case_match; reflexivity.
Qed.

(** X10: no sequence of calls and no [puts] depends on what the host
    answers: with two hosts the results and the states are the same. *)
Theorem console_ignores_host
  (xlen buffer_addr : Z) (layout : Z -> Z -> Z -> Z)
  (host1 host2 : list event -> Z)
  (cs s : list Z) (w : world) :
  put_chars xlen host1 buffer_addr layout cs w =
    put_chars xlen host2 buffer_addr layout cs w /\
  puts xlen host1 buffer_addr layout s w = puts xlen host2 buffer_addr layout s w.
Proof.
  assert (H : forall (l : list Z) (w0 : world),
            put_chars xlen host1 buffer_addr layout l w0 =
            put_chars xlen host2 buffer_addr layout l w0).
  { induction l as [|c l IH]; intros w0; cbn [put_chars]; [reflexivity|].
    unfold_M.
    rewrite (fputc_safe_step xlen host1), (fputc_safe_step xlen host2).
    cbn zeta. case_match; apply IH. }
  split; [apply H|].
  rewrite !puts_feed. unfold exec. rewrite H. reflexivity.
Qed.

(** ** Platform exit and argument blocks *)

Section Semihost.

Variable xlen : Z.
Variable host : list event -> Z.
Hypothesis xlen_ge_32 : 32 <= xlen.

Lemma while_1_never (fuel : nat) : while_1 fuel = None.
Proof. induction fuel as [|fuel IH]; [reflexivity | exact IH]. Qed.

Lemma platform_exit_trap (fuel : nat) (status : Z) (w : world) :
  __pi_init_platform_exit xlen host fuel status w =
    (None,
     World (__pi_libc_buffer w) (__pi_libc_buffer_index w)
       (trace w ++
        [EvTrap SEMIHOSTING_SYS_EXIT
           (Scalar (if status =? 0 then SEMIHOST_EXIT_SUCCESS
                    else SEMIHOST_EXIT_ERROR))
           (__pi_libc_buffer w)])).
Proof.
  unfold __pi_init_platform_exit, __pi_libc_semihost_exit, __pi_libc_semihost.
  unfold_M.
  rewrite while_1_never. rewrite to_long_small; [reflexivity|assumption|].
  unfold int_range, SEMIHOST_EXIT_SUCCESS, SEMIHOST_EXIT_ERROR.
  change (2 ^ 31) with 2147483648. destruct (status =? 0); lia.
Qed.

(** C5: [__pi_init_platform_exit(0)] adds exactly one trap to the
    trace, SYS_EXIT (0x18) with the argument 0x20026; with a status other
    than 0 it adds exactly one trap, SYS_EXIT with the argument 0x20023;
    in both cases the function has not returned after any number of
    iterations of its closing loop. *)
Theorem platform_exit_one_trap (fuel : nat) (n : Z) (w : world) :
  (let (r, w') := __pi_init_platform_exit xlen host fuel 0 w in
   r = None /\
   trace w' = trace w ++ [EvTrap 0x18 (Scalar 0x20026) (__pi_libc_buffer w)]) /\
  (n <> 0 ->
   let (r, w') := __pi_init_platform_exit xlen host fuel n w in
   r = None /\
   trace w' = trace w ++ [EvTrap 0x18 (Scalar 0x20023) (__pi_libc_buffer w)]).
Proof.
  split.
  - rewrite platform_exit_trap. split; reflexivity.
  - intros Hn. rewrite platform_exit_trap. apply Z.eqb_neq in Hn. rewrite Hn.
    split; reflexivity.
Qed.

(** C9: [__pi_libc_semihost_open(name, mode)] adds one trap, SYS_OPEN,
    whose block has three words: the address of the name, the mode, and
    [strlen(name)]; for the empty name the third word is 0. *)
Theorem open_block (name_addr mode : Z) (name : list Z) (w : world) :
  uint_t_range xlen name_addr ->
  int_range mode ->
  strlen name < 2 ^ xlen ->
  (exists word2 : Z,
     trace (exec (__pi_libc_semihost_open xlen host name_addr name mode) w) =
       trace w ++ [EvTrap SEMIHOSTING_SYS_OPEN
                     (Block [name_addr; word2; strlen name])
                     (__pi_libc_buffer w)] /\
     to_int word2 = mode /\
     (0 <= mode -> word2 = mode)) /\
  strlen [] = 0.
Proof.
  intros Ha Hm Hs. split; [|reflexivity].
  exists (to_uint_t xlen mode).
  unfold exec, __pi_libc_semihost_open, __pi_libc_semihost. unfold_M.
  cbn [snd trace].
  rewrite cast_word_addr by assumption.
  assert (Hs0 : 0 <= strlen name).
  { clear. induction name as [|c s IH]; cbn [strlen]; [lia|].
    destruct (c =? 0); lia. }
  rewrite (to_uint_t_small xlen (strlen name)) by (split; assumption).
  split; [reflexivity|]. split.
  - apply to_int_of_uint_t; assumption.
  - intros H0. apply to_uint_t_small, small_uint_t; [assumption|].
    destruct Hm. lia.
Qed.

(** C10: [__pi_libc_semihost_write(fd, buf, N)] adds one trap,
    SYS_WRITE, whose block has three words; a host decoding it finds
    [fd], the address [buf] and [N] again; when [fd] and [N] are not
    negative the words are [fd], [buf], [N] themselves, so
    [write(1, buf, N)] gives (1, [buf], [N]), for 0, 1, 127, 128 and every
    other [N >= 0]. *)
Theorem write_block_roundtrip (fd buffer len : Z) (w : world) :
  int_range fd ->
  uint_t_range xlen buffer ->
  int_range len ->
  exists blk : trap_arg,
    trace (exec (__pi_libc_semihost_write xlen host fd buffer len) w) =
      trace w ++ [EvTrap SEMIHOSTING_SYS_WRITE blk (__pi_libc_buffer w)] /\
    decode_block blk = Some (fd, buffer, len) /\
    (0 <= fd -> 0 <= len -> blk = Block [fd; buffer; len]).
Proof.
  intros Hfd Hb Hlen.
  unfold exec, __pi_libc_semihost_write, __pi_libc_semihost. unfold_M.
  cbn [snd trace].
  eexists. split; [reflexivity|]. split.
  - unfold decode_block. rewrite !to_uint_t_of_long by assumption.
    rewrite !to_int_of_uint_t by assumption.
    rewrite (to_uint_t_small xlen buffer) by assumption. reflexivity.
  - intros H1 H2. destruct Hfd, Hlen.
    rewrite (cast_word_small xlen fd), (cast_word_small xlen len) by (try assumption; lia).
    rewrite cast_word_addr by assumption. reflexivity.
Qed.

(** ** What the wrappers hand back *)

Lemma semihost_call (n : Z) (a : trap_arg) (w : world) :
  (forall tr : list event, int_range (host tr)) ->
  let op : M Z := r ← __pi_libc_semihost xlen host n a; mret (to_int r) in
  result op w = host (trace (exec op w)) /\
  __pi_libc_buffer (exec op w) = __pi_libc_buffer w /\
  __pi_libc_buffer_index (exec op w) = __pi_libc_buffer_index w /\
  trace (exec op w) = trace w ++ [EvTrap n a (__pi_libc_buffer w)].
Proof.
  intros Hh; cbn zeta.
  unfold result, exec, __pi_libc_semihost. unfold_M. cbn [fst snd trace].
  rewrite to_long_small, to_int_small by (try assumption; apply Hh).
  repeat split; reflexivity.
Qed.

(** X11: when the host answers with an [int], each of open, close,
    write, seek and flen returns that answer as it is (a -1 stays a -1),
    asks the host exactly once, and leaves the console buffer and its
    cursor untouched. *)
Theorem wrappers_return_host_answer
  (fd pos name_addr mode buffer len : Z) (name : list Z) (w : world) :
  (forall tr : list event, int_range (host tr)) ->
  Forall
    (fun op : M Z =>
       result op w = host (trace (exec op w)) /\
       __pi_libc_buffer (exec op w) = __pi_libc_buffer w /\
       __pi_libc_buffer_index (exec op w) = __pi_libc_buffer_index w /\
       exists e : event, is_trap e = true /\ trace (exec op w) = trace w ++ [e])
    [__pi_libc_semihost_open xlen host name_addr name mode;
     __pi_libc_semihost_close xlen host fd;
     __pi_libc_semihost_write xlen host fd buffer len;
     __pi_libc_semihost_seek xlen host fd pos;
     __pi_libc_semihost_flen xlen host fd].
Proof.
  intros Hh.
  assert (Hstep : forall (n : Z) (a : trap_arg),
    let op : M Z := r ← __pi_libc_semihost xlen host n a; mret (to_int r) in
    result op w = host (trace (exec op w)) /\
    __pi_libc_buffer (exec op w) = __pi_libc_buffer w /\
    __pi_libc_buffer_index (exec op w) = __pi_libc_buffer_index w /\
    exists e : event, is_trap e = true /\ trace (exec op w) = trace w ++ [e]).
  { intros n a. destruct (semihost_call n a w Hh) as (Hr & Hb & Hi & Ht).
    cbn zeta. split; [exact Hr|]. split; [exact Hb|]. split; [exact Hi|].
    eexists. split; [|exact Ht]. reflexivity. }
  repeat (apply Forall_cons; split; [exact (Hstep _ _)|]).
  apply Forall_nil. exact I.
Qed.

(** X12: the host can tell a zero status from a non-zero one and nothing
    more: two calls of [__pi_init_platform_exit] do the same exactly when
    their statuses are both zero or both non-zero. *)
Theorem exit_status_collapses (fuel : nat) (a b : Z) (w : world) :
  __pi_init_platform_exit xlen host fuel a w =
    __pi_init_platform_exit xlen host fuel b w
  <-> (a = 0 <-> b = 0).
Proof.
  rewrite !platform_exit_trap. split.
  - intros H. injection H as H. apply app_inv_head in H. injection H as H.
    destruct (Z.eqb_spec a 0) as [Ha|Ha], (Z.eqb_spec b 0) as [Hb|Hb];
      try discriminate H; split; intros E; congruence.
  - intros H.
    destruct (Z.eqb_spec a 0) as [Ha|Ha], (Z.eqb_spec b 0) as [Hb|Hb];
      try reflexivity; exfalso.
    + apply Hb, H, Ha.
    + apply Ha, H, Hb.
Qed.

(** X13: [__pi_libc_semihost_seek(fd, pos)] asks the host once, SYS_SEEK
    with a block of two words; the second is [pos] as given, the first
    reads back as [fd] and is [fd] itself when [fd] is not negative. *)
Theorem seek_block (fd pos : Z) (w : world) :
  int_range fd ->
  exists word1 : Z,
    trace (exec (__pi_libc_semihost_seek xlen host fd pos) w) =
      trace w ++ [EvTrap SEMIHOSTING_SYS_SEEK (Block [word1; pos])
                    (__pi_libc_buffer w)] /\
    to_int word1 = fd /\
    (0 <= fd -> word1 = fd).
Proof.
  intros Hfd.
  unfold exec, __pi_libc_semihost_seek, __pi_libc_semihost. unfold_M.
  cbn [snd trace]. eexists. split; [reflexivity|]. split.
  - rewrite to_uint_t_of_long by assumption.
    apply to_int_of_uint_t; assumption.
  - intros H0. destruct Hfd. apply cast_word_small; [assumption | lia].
Qed.

(** X14: [__pi_init_platform_exit] does not flush the console: the
    buffer and the cursor stay as they are and the host reads no byte
    more, so bytes appended since the last flush never reach it. *)
Theorem exit_does_not_flush
  (buffer_addr : Z) (fuel : nat) (status : Z) (w : world) :
  let w' := snd (__pi_init_platform_exit xlen host fuel status w) in
  sent buffer_addr w' = sent buffer_addr w /\
  __pi_libc_buffer w' = __pi_libc_buffer w /\
  __pi_libc_buffer_index w' = __pi_libc_buffer_index w /\
  Forall (fun e => transmitted buffer_addr e = [])
    (drop (length (trace w)) (trace w')).
Proof.
  cbn zeta. rewrite platform_exit_trap. cbn [snd].
  split; [|split; [reflexivity|split; [reflexivity|]]].
  - unfold sent, traps. cbn [trace].
    rewrite filter_app, map_app, concat_app. cbn. apply app_nil_r.
  - cbn [trace]. rewrite drop_app_length.
    apply Forall_singleton. reflexivity.
Qed.

End Semihost.

(** ** Concrete runs *)

Lemma demo_xlen : 32 <= 32.
Proof. lia. Qed.

Lemma demo_addr_word : uint_t_range 32 demo_addr.
Proof. unfold uint_t_range, demo_addr. change (2 ^ 32) with 4294967296. lia. Qed.

(** C3: 128 calls with the character 'a' from the initial state.  The
    128th call stores the character at offset 127, then a zero at offset
    128, then traps; offset 128 is outside the 128-byte array.  With the
    cursor apart from the buffer the trap carries the length 128; with
    the cursor after the buffer the zero has cleared its low byte and the
    trap carries the length 0; the two stores are the same whatever the
    layout. *)
Theorem terminator_store_past_end :
  (let w := exec (put_chars 32 demo_host demo_addr cursor_apart (replicate 127 97)) init in
   let w' := exec (__pi_libc_fputc_safe 32 demo_host demo_addr cursor_apart 97 NULL) w in
   __pi_libc_buffer_index w = 127 /\
   drop (length (trace w)) (trace w') =
     [EvStore 127 97; EvStore 128 0;
      EvTrap SEMIHOSTING_SYS_WRITE (Block [1; demo_addr; 128]) (replicate 128 97)] /\
   store_in_bounds (EvStore 128 0) = false /\
   forallb store_in_bounds (trace w') = false) /\
  (let w := exec (put_chars 32 demo_host demo_addr cursor_after_buffer
                    (replicate 127 97)) init in
   let w' := exec (__pi_libc_fputc_safe 32 demo_host demo_addr cursor_after_buffer
                     97 NULL) w in
   __pi_libc_buffer_index w = 127 /\
   drop (length (trace w)) (trace w') =
     [EvStore 127 97; EvStore 128 0;
      EvTrap SEMIHOSTING_SYS_WRITE (Block [1; demo_addr; 0]) (replicate 128 97)] /\
   forallb store_in_bounds (trace w') = false) /\
  (forall layout : Z -> Z -> Z -> Z,
   let w := exec (put_chars 32 demo_host demo_addr layout (replicate 127 97)) init in
   let w' := exec (__pi_libc_fputc_safe 32 demo_host demo_addr layout 97 NULL) w in
   exists e : event,
     trace w' = trace w ++ [EvStore 127 97; EvStore 128 0; e]).
Proof.
  split; [vm_compute; repeat split; reflexivity|].
  split; [vm_compute; repeat split; reflexivity|].
  intros layout w w'.
  assert (Hw : reachable 32 demo_host demo_addr layout w)
    by apply reachable_feed, reachable_init.
  destruct (feed_keep 32 demo_host demo_addr layout (replicate 127 97) init)
    as (Hi & _).
  { apply Forall_replicate. lia. } { reflexivity. } { reflexivity. }
  { apply length_replicate. }
  fold w in Hi. change (__pi_libc_buffer_index w = 127) in Hi.
  destruct (capacity_call_store 32 demo_host demo_addr layout demo_xlen
              demo_addr_word 97 NULL w Hw) as (e & He & _).
  { rewrite Hi. reflexivity. }
  exists e. rewrite Hi in He. exact He.
Qed.

(** C1: 127 calls with 'a' and then a newline, the cursor laid out
    after the buffer.  The newline fills the last slot; the zero stored
    at offset 128 clears the cursor before it is read for the length: the
    one trap carries the length 0 and the host reads nothing, where 128
    bytes ending in the newline were due.  With the cursor apart the same
    calls hand over the 128 bytes. *)
Theorem newline_in_last_slot :
  (let cs := replicate 127 97 ++ [10] in
   let w := exec (put_chars 32 demo_host demo_addr cursor_after_buffer cs) init in
   traps w = [EvTrap SEMIHOSTING_SYS_WRITE (Block [1; demo_addr; 0]) cs] /\
   map (transmitted demo_addr) (traps w) = [[]] /\
   __pi_libc_buffer_index w = 0) /\
  (let cs := replicate 127 97 ++ [10] in
   let w := exec (put_chars 32 demo_host demo_addr cursor_apart cs) init in
   traps w = [EvTrap SEMIHOSTING_SYS_WRITE (Block [1; demo_addr; 128]) cs] /\
   map (transmitted demo_addr) (traps w) = [cs]).
Proof.
  split; vm_compute; repeat split; reflexivity.
Qed.

(** C2: 128 calls with 'a', the cursor laid out after the buffer.  No
    trap during the first 127 calls; the 128th brings one SYS_WRITE, but
    with the length 0: the host reads none of the 128 bytes, and the
    cursor is back at 0, so they are not sent later either.  With the
    cursor apart the same calls hand over the 128 bytes. *)
Theorem capacity_flush_sends_nothing :
  (let cs := replicate 128 97 in
   let w := exec (put_chars 32 demo_host demo_addr cursor_after_buffer cs) init in
   traps (exec (put_chars 32 demo_host demo_addr cursor_after_buffer (take 127 cs))
            init) = [] /\
   traps w = [EvTrap SEMIHOSTING_SYS_WRITE (Block [1; demo_addr; 0]) cs] /\
   map (transmitted demo_addr) (traps w) = [[]] /\
   __pi_libc_buffer_index w = 0) /\
  (let cs := replicate 128 97 in
   let w := exec (put_chars 32 demo_host demo_addr cursor_apart cs) init in
   traps w = [EvTrap SEMIHOSTING_SYS_WRITE (Block [1; demo_addr; 128]) cs] /\
   map (transmitted demo_addr) (traps w) = [cs]).
Proof.
  split; vm_compute; repeat split; reflexivity.
Qed.

(** C6: the flush of the call that fills the last slot, the cursor laid
    out after the buffer.  The zero goes to offset 128, which is no slot
    of the buffer: the buffer the host finds holds no zero.  The length
    handed to the write is 0, not the advanced cursor 128. *)
Theorem terminator_at_capacity :
  let w := exec (put_chars 32 demo_host demo_addr cursor_after_buffer
                   (replicate 127 97)) init in
  let w' := exec (__pi_libc_fputc_safe 32 demo_host demo_addr cursor_after_buffer
                    97 NULL) w in
  let cursor := __pi_libc_buffer_index w + 1 in
  cursor = PI_LIBC_PUTC_BUFFER_SIZE /\
  exists mem : list Z,
    drop (length (trace w)) (trace w') =
      [EvStore 127 97; EvStore cursor 0;
       EvTrap SEMIHOSTING_SYS_WRITE (Block [1; demo_addr; 0]) mem] /\
    store_in_bounds (EvStore cursor 0) = false /\
    mem !! Z.to_nat cursor = None /\
    forallb (fun b => negb (b =? 0)) mem = true /\
    0 <> cursor.
Proof.
  cbn zeta. split; [vm_compute; reflexivity|].
  eexists. vm_compute. repeat split; try reflexivity. discriminate.
Qed.

(** C4, as worded: [putchar(266)] at process start appends a newline
    byte, the cursor does not reach the capacity, and there is no flush:
    no trap, and the cursor is 1, not 0. *)
Lemma newline_byte_appended_no_flush :
  let w' := exec (__pi_libc_fputc_safe 32 demo_host demo_addr cursor_after_buffer
                    266 NULL) init in
  __pi_libc_buffer w' !! 0%nat = Some 10 /\
  __pi_libc_buffer_index init + 1 <> PI_LIBC_PUTC_BUFFER_SIZE /\
  traps w' = [] /\
  __pi_libc_buffer_index w' = 1 /\
  ~ (__pi_libc_buffer w' !! 0%nat = Some 10 ->
     traps w' <> [] /\ __pi_libc_buffer_index w' = 0).
Proof.
  cbn zeta. vm_compute. repeat split; try reflexivity; try discriminate.
  intros H. destruct (H eq_refl) as [H1 _]. apply H1. reflexivity.
Qed.

Lemma newline_flushes_once_witness :
  32 <= 32 /\ uint_t_range 32 demo_addr /\
  Forall (fun c => c <> 10) [104; 105] /\
  Z.of_nat (length [104; 105]) = 2 /\
  2 + 1 < PI_LIBC_PUTC_BUFFER_SIZE /\
  exists mem : list Z,
    let e := EvTrap SEMIHOSTING_SYS_WRITE (Block [1; demo_addr; 2 + 1]) mem in
    traps (exec (put_chars 32 demo_host demo_addr cursor_after_buffer [104; 105]) init) = [] /\
    traps (exec (put_chars 32 demo_host demo_addr cursor_after_buffer ([104; 105] ++ [10])) init) = [e] /\
    transmitted demo_addr e = map to_char [104; 105] ++ [10] /\
    length (transmitted demo_addr e) = Z.to_nat (2 + 1) /\
    __pi_libc_buffer_index
      (exec (put_chars 32 demo_host demo_addr cursor_after_buffer ([104; 105] ++ [10])) init) = 0 /\
    forall post : list Z, exists later : list event,
      traps (exec (put_chars 32 demo_host demo_addr cursor_after_buffer ([104; 105] ++ 10 :: post)) init)
        = e :: later.
Proof.
  assert (Hnl : Forall (fun c => c <> 10) [104; 105])
    by (repeat constructor; lia).
  assert (Hlen : Z.of_nat (length [104; 105]) = 2) by reflexivity.
  assert (Hlt : 2 + 1 < PI_LIBC_PUTC_BUFFER_SIZE) by reflexivity.
  repeat (split; [assumption || exact demo_xlen || exact demo_addr_word|]).
  exact (newline_flushes_once 32 demo_host demo_addr cursor_after_buffer demo_xlen demo_addr_word
           [104; 105] 2 Hnl Hlen Hlt).
Defined.

Lemma capacity_flush_length_witness :
  let cs := replicate 128 97 in
  32 <= 32 /\ uint_t_range 32 demo_addr /\
  Forall (fun c => c <> 10) cs /\
  length cs = Z.to_nat PI_LIBC_PUTC_BUFFER_SIZE /\
  to_uint_t 32 (to_long 32 (cursor_after_buffer PI_LIBC_PUTC_BUFFER_SIZE 0
                              PI_LIBC_PUTC_BUFFER_SIZE)) = 0 /\
  exists mem : list Z,
    let lw := to_uint_t 32
                (to_long 32 (cursor_after_buffer PI_LIBC_PUTC_BUFFER_SIZE 0
                               PI_LIBC_PUTC_BUFFER_SIZE)) in
    let e := EvTrap SEMIHOSTING_SYS_WRITE (Block [1; demo_addr; lw]) mem in
    (forall n : nat, (n < length cs)%nat ->
       traps (exec (put_chars 32 demo_host demo_addr cursor_after_buffer (take n cs))
                init) = []) /\
    traps (exec (put_chars 32 demo_host demo_addr cursor_after_buffer cs) init) = [e] /\
    mem = map to_char cs /\
    transmitted demo_addr e = take (Z.to_nat lw) (map to_char cs) /\
    __pi_libc_buffer_index
      (exec (put_chars 32 demo_host demo_addr cursor_after_buffer cs) init) = 0.
Proof.
  intros cs.
  assert (Hnl : Forall (fun c : Z => c <> 10) cs)
    by (apply Forall_replicate; lia).
  assert (Hlen : length cs = Z.to_nat PI_LIBC_PUTC_BUFFER_SIZE)
    by apply length_replicate.
  repeat (split; [assumption || exact demo_xlen || exact demo_addr_word|]).
  split; [reflexivity|].
  exact (capacity_flush_length 32 demo_host demo_addr cursor_after_buffer
           demo_xlen demo_addr_word cs Hnl Hlen).
Defined.

Lemma cursor_invariant_witness :
  32 <= 32 /\ uint_t_range 32 demo_addr /\
  (forall w : world, reachable 32 demo_host demo_addr cursor_after_buffer w ->
     0 <= __pi_libc_buffer_index w <= PI_LIBC_PUTC_BUFFER_SIZE) /\
  (forall cs : list Z,
     let w := exec (put_chars 32 demo_host demo_addr cursor_after_buffer cs) init in
     __pi_libc_buffer_index w = Z.of_nat (length (pending cs)) /\
     take (Z.to_nat (__pi_libc_buffer_index w)) (__pi_libc_buffer w) = pending cs) /\
  (forall (w : world) (c stream : Z),
     reachable 32 demo_host demo_addr cursor_after_buffer w ->
     let w' := exec (__pi_libc_fputc_safe 32 demo_host demo_addr cursor_after_buffer c stream) w in
     (exists evs : list event,
        trace w' = trace w ++ EvStore (__pi_libc_buffer_index w) (to_char c) :: evs) /\
     (__pi_libc_buffer_index w + 1 = PI_LIBC_PUTC_BUFFER_SIZE \/ c = 10 ->
        (exists (lw : Z) (mem : list Z),
           traps w' = traps w ++
             [EvTrap SEMIHOSTING_SYS_WRITE (Block [1; demo_addr; lw]) mem] /\
           (__pi_libc_buffer_index w + 1 < PI_LIBC_PUTC_BUFFER_SIZE ->
            lw = __pi_libc_buffer_index w + 1)) /\
        __pi_libc_buffer_index w' = 0) /\
     (~ (__pi_libc_buffer_index w + 1 = PI_LIBC_PUTC_BUFFER_SIZE \/ c = 10) ->
        traps w' = traps w /\
        __pi_libc_buffer_index w' = __pi_libc_buffer_index w + 1) /\
     (0 <= c < 256 -> to_char c = c)) /\
  (forall cs : list Z,
     Forall (fun c => c <> 10) cs ->
     Z.of_nat (length cs) < PI_LIBC_PUTC_BUFFER_SIZE ->
     traps (exec (put_chars 32 demo_host demo_addr cursor_after_buffer cs) init) = []).
Proof.
  split; [exact demo_xlen|]. split; [exact demo_addr_word|].
  exact (cursor_invariant 32 demo_host demo_addr cursor_after_buffer demo_xlen demo_addr_word).
Defined.

(** After the line "abc", a further newline: the zero replaces the 'b'
    left at offset 1. *)
Lemma terminator_below_last_slot_witness :
  let w := exec (put_chars 32 demo_host demo_addr cursor_after_buffer
                   [97; 98; 99; 10]) init in
  32 <= 32 /\ uint_t_range 32 demo_addr /\
  reachable 32 demo_host demo_addr cursor_after_buffer w /\
  __pi_libc_buffer_index w + 1 < PI_LIBC_PUTC_BUFFER_SIZE /\
  __pi_libc_buffer w !! 1%nat = Some 98 /\
  let cursor := __pi_libc_buffer_index w + 1 in
  exists mem : list Z,
    let e := EvTrap SEMIHOSTING_SYS_WRITE (Block [1; demo_addr; cursor]) mem in
    trace (exec (__pi_libc_fputc_safe 32 demo_host demo_addr cursor_after_buffer
                   10 NULL) w) =
      trace w ++ [EvStore (__pi_libc_buffer_index w) 10; EvStore cursor 0; e] /\
    mem = <[Z.to_nat cursor := 0]>
            (<[Z.to_nat (__pi_libc_buffer_index w) := 10]> (__pi_libc_buffer w)) /\
    mem !! Z.to_nat cursor = Some 0 /\
    transmitted demo_addr e =
      take (Z.to_nat (__pi_libc_buffer_index w)) (__pi_libc_buffer w) ++ [10] /\
    length (transmitted demo_addr e) = Z.to_nat cursor.
Proof.
  intros w.
  assert (Hw : reachable 32 demo_host demo_addr cursor_after_buffer w)
    by apply reachable_feed, reachable_init.
  assert (Hlt : __pi_libc_buffer_index w + 1 < PI_LIBC_PUTC_BUFFER_SIZE)
    by reflexivity.
  repeat (split; [assumption || exact demo_xlen || exact demo_addr_word|]).
  split; [reflexivity|].
  exact (terminator_below_last_slot 32 demo_host demo_addr cursor_after_buffer
           demo_xlen demo_addr_word NULL w Hw Hlt).
Defined.

Lemma puts_feeds_then_newline_witness :
  32 <= 32 /\ uint_t_range 32 demo_addr /\
  (forall (s : list Z) (w : world),
     puts 32 demo_host demo_addr cursor_after_buffer s w =
       (0, exec (put_chars 32 demo_host demo_addr cursor_after_buffer (c_string s ++ [10])) w)) /\
  Forall (fun c => c <> 0) [104; 105] /\
  c_string [104; 105] = [104; 105] /\
  (exists mem : list Z,
     let e := EvTrap SEMIHOSTING_SYS_WRITE (Block [1; demo_addr; 1]) mem in
     puts 32 demo_host demo_addr cursor_after_buffer [] init =
       (0, exec (__pi_libc_fputc_safe 32 demo_host demo_addr cursor_after_buffer 10 NULL) init) /\
     traps (exec (puts 32 demo_host demo_addr cursor_after_buffer []) init) = [e] /\
     transmitted demo_addr e = [10]).
Proof.
  destruct (puts_feeds_then_newline 32 demo_host demo_addr cursor_after_buffer demo_xlen demo_addr_word)
    as (Hputs & Hstr & Hempty).
  split; [exact demo_xlen|]. split; [exact demo_addr_word|].
  assert (Hs : Forall (fun c => c <> 0) [104; 105]) by (repeat constructor; lia).
  split; [exact Hputs|]. split; [exact Hs|].
  split; [exact (Hstr [104; 105] Hs) | exact Hempty].
Defined.

Lemma platform_exit_one_trap_witness :
  32 <= 32 /\ 1 <> 0 /\
  (let (r, w') := __pi_init_platform_exit 32 demo_host 5 0 init in
   r = None /\
   trace w' = trace init ++ [EvTrap 0x18 (Scalar 0x20026) (__pi_libc_buffer init)]) /\
  (let (r, w') := __pi_init_platform_exit 32 demo_host 5 1 init in
   r = None /\
   trace w' = trace init ++ [EvTrap 0x18 (Scalar 0x20023) (__pi_libc_buffer init)]).
Proof.
  assert (Hn : 1 <> 0) by lia.
  destruct (platform_exit_one_trap 32 demo_host demo_xlen 5%nat 1 init) as [H0 H1].
  split; [exact demo_xlen|]. split; [exact Hn|]. split; [exact H0 | exact (H1 Hn)].
Defined.

(** "a.txt", opened with mode 4. *)
Lemma open_block_witness :
  let name := [97; 46; 116; 120; 116] in
  32 <= 32 /\ uint_t_range 32 demo_addr /\ int_range 4 /\ strlen name < 2 ^ 32 /\
  strlen name = 5 /\
  (exists word2 : Z,
     trace (exec (__pi_libc_semihost_open 32 demo_host demo_addr name 4) init) =
       trace init ++ [EvTrap SEMIHOSTING_SYS_OPEN
                        (Block [demo_addr; word2; strlen name])
                        (__pi_libc_buffer init)] /\
     to_int word2 = 4 /\
     (0 <= 4 -> word2 = 4)) /\
  strlen [] = 0.
Proof.
  intros name.
  assert (Hm : int_range 4) by (unfold int_range; change (2 ^ 31) with 2147483648; lia).
  assert (Hs : strlen name < 2 ^ 32) by reflexivity.
  split; [exact demo_xlen|]. split; [exact demo_addr_word|].
  split; [exact Hm|]. split; [exact Hs|]. split; [reflexivity|].
  exact (open_block 32 demo_host demo_xlen demo_addr 4 name init
           demo_addr_word Hm Hs).
Defined.

(** [write(1, buf, N)] for N = 0, 1, 127, 128 on a 32-bit machine: the
    block is (1, buf, N) and decodes to the same. *)
Example write_block_lengths :
  Forall
    (fun N =>
       trace (exec (__pi_libc_semihost_write 32 demo_host 1 demo_addr N) init) =
         [EvTrap SEMIHOSTING_SYS_WRITE (Block [1; demo_addr; N])
            (__pi_libc_buffer init)] /\
       decode_block (Block [1; demo_addr; N]) = Some (1, demo_addr, N))
    [0; 1; 127; 128].
Proof. repeat constructor. Qed.

(** A negative descriptor and length come back from the block as they
    went in. *)
Example write_block_negative :
  trace (exec (__pi_libc_semihost_write 32 demo_host (-1) demo_addr (-5)) init) =
    [EvTrap SEMIHOSTING_SYS_WRITE (Block [4294967295; demo_addr; 4294967291])
       (__pi_libc_buffer init)] /\
  decode_block (Block [4294967295; demo_addr; 4294967291]) =
    Some (-1, demo_addr, -5).
Proof. split; reflexivity. Qed.

(** [write(1, buf, 128)]. *)
Lemma write_block_roundtrip_witness :
  32 <= 32 /\ int_range 1 /\ uint_t_range 32 demo_addr /\ int_range 128 /\
  (exists blk : trap_arg,
     trace (exec (__pi_libc_semihost_write 32 demo_host 1 demo_addr 128) init) =
       trace init ++ [EvTrap SEMIHOSTING_SYS_WRITE blk (__pi_libc_buffer init)] /\
     decode_block blk = Some (1, demo_addr, 128) /\
     (0 <= 1 -> 0 <= 128 -> blk = Block [1; demo_addr; 128])).
Proof.
  assert (H1 : int_range 1) by (unfold int_range; change (2 ^ 31) with 2147483648; lia).
  assert (H128 : int_range 128)
    by (unfold int_range; change (2 ^ 31) with 2147483648; lia).
  split; [exact demo_xlen|]. split; [exact H1|]. split; [exact demo_addr_word|].
  split; [exact H128|].
  exact (write_block_roundtrip 32 demo_host demo_xlen 1 demo_addr 128 init
           H1 demo_addr_word H128).
Defined.

(** ** Concrete runs of the further properties *)

(** "hi", a newline and "!" *)
Lemma no_byte_lost_witness :
  let cs := [104; 105; 10; 33] in
  let w := exec (put_chars 32 demo_host demo_addr cursor_after_buffer cs) init in
  32 <= 32 /\ uint_t_range 32 demo_addr /\
  Forall (fun e => store_in_bounds e = true) (trace w) /\
  sent demo_addr w ++ take (Z.to_nat (__pi_libc_buffer_index w)) (__pi_libc_buffer w)
    = map to_char cs /\
  Z.of_nat (length (sent demo_addr w)) + __pi_libc_buffer_index w
    = Z.of_nat (length cs).
Proof.
  intros cs w.
  assert (Hs : Forall (fun e => store_in_bounds e = true) (trace w)).
  { apply Forall_forall. intros e He.
    apply (proj1 (forallb_forall store_in_bounds (trace w)) eq_refl).
    apply list_elem_of_In. exact He. }
  split; [exact demo_xlen|]. split; [exact demo_addr_word|]. split; [exact Hs|].
  exact (no_byte_lost 32 demo_host demo_addr cursor_after_buffer demo_xlen
           demo_addr_word cs Hs).
Defined.

(** "!" pending, then [puts("hi")]. *)
Lemma puts_flushes_all_witness :
  let w := exec (put_chars 32 demo_host demo_addr cursor_after_buffer [33]) init in
  let s := [104; 105] in
  let w' := exec (puts 32 demo_host demo_addr cursor_after_buffer s) w in
  32 <= 32 /\ uint_t_range 32 demo_addr /\
  reachable 32 demo_host demo_addr cursor_after_buffer w /\
  Forall (fun e => store_in_bounds e = true) (drop (length (trace w)) (trace w')) /\
  result (puts 32 demo_host demo_addr cursor_after_buffer s) w = 0 /\
  __pi_libc_buffer_index w' = 0 /\
  sent demo_addr w' =
    sent demo_addr w ++
    take (Z.to_nat (__pi_libc_buffer_index w)) (__pi_libc_buffer w) ++
    map to_char (c_string s) ++ [10].
Proof.
  intros w s w'.
  assert (Hw : reachable 32 demo_host demo_addr cursor_after_buffer w)
    by apply reachable_feed, reachable_init.
  assert (Hs : Forall (fun e => store_in_bounds e = true)
                 (drop (length (trace w)) (trace w'))).
  { apply Forall_forall. intros e He.
    apply (proj1 (forallb_forall store_in_bounds
                    (drop (length (trace w)) (trace w'))) eq_refl).
    apply list_elem_of_In. exact He. }
  destruct (puts_flushes_all 32 demo_host demo_addr cursor_after_buffer demo_xlen
              demo_addr_word s w Hw) as (Hr & Hi & Hsent).
  split; [exact demo_xlen|]. split; [exact demo_addr_word|]. split; [exact Hw|].
  split; [exact Hs|]. split; [exact Hr|]. split; [exact Hi | exact (Hsent Hs)].
Defined.

Lemma console_traps_are_writes_witness :
  let w := exec (put_chars 32 demo_host demo_addr cursor_after_buffer
                   [104; 10; 105; 10]) init in
  32 <= 32 /\ uint_t_range 32 demo_addr /\
  reachable 32 demo_host demo_addr cursor_after_buffer w /\
  Forall (fun e => store_in_bounds e = true) (trace w) /\
  Forall
    (fun e => exists (lw : Z) (mem : list Z),
       e = EvTrap SEMIHOSTING_SYS_WRITE (Block [1; demo_addr; lw]) mem /\
       length mem = Z.to_nat PI_LIBC_PUTC_BUFFER_SIZE)
    (traps w) /\
  Forall
    (fun e => exists (len : Z) (mem : list Z),
       e = EvTrap SEMIHOSTING_SYS_WRITE (Block [1; demo_addr; len]) mem /\
       1 <= len < PI_LIBC_PUTC_BUFFER_SIZE /\
       length (transmitted demo_addr e) = Z.to_nat len)
    (traps w).
Proof.
  intros w.
  assert (Hw : reachable 32 demo_host demo_addr cursor_after_buffer w)
    by apply reachable_feed, reachable_init.
  assert (Hs : Forall (fun e => store_in_bounds e = true) (trace w)).
  { apply Forall_forall. intros e He.
    apply (proj1 (forallb_forall store_in_bounds (trace w)) eq_refl).
    apply list_elem_of_In. exact He. }
  destruct (console_traps_are_writes 32 demo_host demo_addr cursor_after_buffer
              demo_xlen demo_addr_word w Hw) as [H1 H2].
  split; [exact demo_xlen|]. split; [exact demo_addr_word|]. split; [exact Hw|].
  split; [exact Hs|]. split; [exact H1 | exact (H2 Hs)].
Defined.

Lemma stores_stay_in_array_witness :
  let w := exec (put_chars 32 demo_host demo_addr cursor_after_buffer (replicate 128 97)) init in
  32 <= 32 /\ uint_t_range 32 demo_addr /\
  reachable 32 demo_host demo_addr cursor_after_buffer w /\
  Forall
    (fun e => match e with
              | EvStore off v =>
                  0 <= off < PI_LIBC_PUTC_BUFFER_SIZE \/
                  (off = PI_LIBC_PUTC_BUFFER_SIZE /\ v = 0)
              | EvTrap _ _ _ => True
              end)
    (trace w).
Proof.
  intros w.
  assert (Hw : reachable 32 demo_host demo_addr cursor_after_buffer w)
    by apply reachable_feed, reachable_init.
  split; [exact demo_xlen|]. split; [exact demo_addr_word|]. split; [exact Hw|].
  exact (stores_stay_in_array 32 demo_host demo_addr cursor_after_buffer demo_xlen
           demo_addr_word w Hw).
Defined.

Lemma trap_count_witness :
  let cs := replicate 130 97 in
  let w := exec (put_chars 32 demo_host demo_addr cursor_after_buffer cs) init in
  32 <= 32 /\ uint_t_range 32 demo_addr /\
  Forall (fun c => c <> 10) cs /\
  Z.of_nat (length (traps w)) = Z.of_nat (length cs) / PI_LIBC_PUTC_BUFFER_SIZE /\
  __pi_libc_buffer_index w = Z.of_nat (length cs) mod PI_LIBC_PUTC_BUFFER_SIZE.
Proof.
  intros cs w.
  assert (Hnl : Forall (fun c : Z => c <> 10) cs)
    by (apply Forall_replicate; lia).
  split; [exact demo_xlen|]. split; [exact demo_addr_word|]. split; [exact Hnl|].
  exact (trap_count 32 demo_host demo_addr cursor_after_buffer demo_xlen demo_addr_word cs Hnl).
Defined.

Lemma one_write_per_line_witness :
  let lines := [[104; 105]; []; [33]] in
  let w := exec (put_chars 32 demo_host demo_addr cursor_after_buffer
                   (concat (map (fun l => l ++ [10]) lines))) init in
  32 <= 32 /\ uint_t_range 32 demo_addr /\
  Forall (fun l => Forall (fun c => c <> 10) l /\
                   Z.of_nat (length l) + 1 < PI_LIBC_PUTC_BUFFER_SIZE) lines /\
  map (transmitted demo_addr) (traps w) =
    map (fun l => map to_char l ++ [10]) lines /\
  __pi_libc_buffer_index w = 0.
Proof.
  intros lines w.
  assert (Hl : Forall (fun l => Forall (fun c => c <> 10) l /\
                       Z.of_nat (length l) + 1 < PI_LIBC_PUTC_BUFFER_SIZE) lines).
  { repeat (apply Forall_cons; split; [split; [|reflexivity]|]);
      try apply Forall_nil; try exact I;
      repeat (apply Forall_cons; split; [lia|]); apply Forall_nil; exact I. }
  split; [exact demo_xlen|]. split; [exact demo_addr_word|]. split; [exact Hl|].
  exact (one_write_per_line 32 demo_host demo_addr cursor_after_buffer demo_xlen demo_addr_word
           lines Hl).
Defined.

(** [putchar(266)] at process start. *)
Lemma newline_byte_without_flush_witness :
  let w' := exec (__pi_libc_fputc_safe 32 demo_host demo_addr cursor_after_buffer 266 NULL) init in
  32 <= 32 /\ uint_t_range 32 demo_addr /\
  reachable 32 demo_host demo_addr cursor_after_buffer init /\
  __pi_libc_buffer_index init + 1 <> PI_LIBC_PUTC_BUFFER_SIZE /\
  266 <> 10 /\ to_char 266 = 10 /\
  traps w' = traps init /\
  __pi_libc_buffer_index w' = __pi_libc_buffer_index init + 1 /\
  __pi_libc_buffer w' !! Z.to_nat (__pi_libc_buffer_index init) = Some 10.
Proof.
  intros w'.
  assert (Hw : reachable 32 demo_host demo_addr cursor_after_buffer init) by apply reachable_init.
  assert (Hn : __pi_libc_buffer_index init + 1 <> PI_LIBC_PUTC_BUFFER_SIZE)
    by discriminate.
  assert (Hc : 266 <> 10) by lia.
  assert (Hb : to_char 266 = 10) by reflexivity.
  repeat (split; [assumption || exact demo_xlen || exact demo_addr_word|]).
  exact (newline_byte_without_flush 32 demo_host demo_addr cursor_after_buffer demo_xlen
           demo_addr_word 266 NULL init Hw Hn Hc Hb).
Defined.

Lemma putchar_line_witness :
  let s := [104; 105] in
  Forall (fun c => c <> 0) s /\
  fputc 32 demo_host demo_addr cursor_after_buffer 104 7 init =
    (0, exec (__pi_libc_fputc_safe 32 demo_host demo_addr cursor_after_buffer 104 NULL) init) /\
  putchar 32 demo_host demo_addr cursor_after_buffer 104 init = fputc 32 demo_host demo_addr cursor_after_buffer 104 7 init /\
  exec (putchar_all 32 demo_host demo_addr cursor_after_buffer (s ++ [10])) init =
    exec (puts 32 demo_host demo_addr cursor_after_buffer s) init.
Proof.
  intros s.
  assert (Hs : Forall (fun c : Z => c <> 0) s)
    by (repeat (apply Forall_cons; split; [lia|]); apply Forall_nil; exact I).
  split; [exact Hs|].
  exact (putchar_line 32 demo_host demo_addr cursor_after_buffer s 104 7 init Hs).
Defined.

(** A host that refuses everything: the five wrappers return -1. *)
Lemma wrappers_return_host_answer_witness :
  32 <= 32 /\
  (forall tr : list event, int_range (refusing_host tr)) /\
  Forall
    (fun op : M Z =>
       result op init = refusing_host (trace (exec op init)) /\
       __pi_libc_buffer (exec op init) = __pi_libc_buffer init /\
       __pi_libc_buffer_index (exec op init) = __pi_libc_buffer_index init /\
       exists e : event, is_trap e = true /\ trace (exec op init) = trace init ++ [e])
    [__pi_libc_semihost_open 32 refusing_host demo_addr [97; 46; 116; 120; 116] 4;
     __pi_libc_semihost_close 32 refusing_host 3;
     __pi_libc_semihost_write 32 refusing_host 3 demo_addr 16;
     __pi_libc_semihost_seek 32 refusing_host 3 8;
     __pi_libc_semihost_flen 32 refusing_host 3].
Proof.
  assert (Hh : forall tr : list event, int_range (refusing_host tr)).
  { intros tr. unfold int_range, refusing_host.
    change (2 ^ 31) with 2147483648. lia. }
  split; [exact demo_xlen|]. split; [exact Hh|].
  exact (wrappers_return_host_answer 32 refusing_host demo_xlen
           3 8 demo_addr 4 demo_addr 16 [97; 46; 116; 120; 116] init Hh).
Defined.

Lemma exit_status_collapses_witness :
  32 <= 32 /\
  (__pi_init_platform_exit 32 demo_host 5 1 init =
     __pi_init_platform_exit 32 demo_host 5 2 init
   <-> (1 = 0 <-> 2 = 0)).
Proof.
  split; [exact demo_xlen|].
  exact (exit_status_collapses 32 demo_host demo_xlen 5%nat 1 2 init).
Defined.

Lemma seek_block_witness :
  32 <= 32 /\ int_range 3 /\
  exists word1 : Z,
    trace (exec (__pi_libc_semihost_seek 32 demo_host 3 16) init) =
      trace init ++ [EvTrap SEMIHOSTING_SYS_SEEK (Block [word1; 16])
                       (__pi_libc_buffer init)] /\
    to_int word1 = 3 /\
    (0 <= 3 -> word1 = 3).
Proof.
  assert (H3 : int_range 3)
    by (unfold int_range; change (2 ^ 31) with 2147483648; lia).
  split; [exact demo_xlen|]. split; [exact H3|].
  exact (seek_block 32 demo_host demo_xlen 3 16 init H3).
Defined.

(** Three bytes pending, then exit. *)
Lemma exit_does_not_flush_witness :
  let w := exec (put_chars 32 demo_host demo_addr cursor_after_buffer [97; 98; 99]) init in
  let w' := snd (__pi_init_platform_exit 32 demo_host 5 0 w) in
  32 <= 32 /\
  sent demo_addr w' = sent demo_addr w /\
  __pi_libc_buffer w' = __pi_libc_buffer w /\
  __pi_libc_buffer_index w' = __pi_libc_buffer_index w /\
  Forall (fun e => transmitted demo_addr e = [])
    (drop (length (trace w)) (trace w')).
Proof.
  intros w w'. split; [exact demo_xlen|].
  exact (exit_does_not_flush 32 demo_host demo_xlen demo_addr 5%nat 0 w).
Defined.
